(** * VraenApp backend: balance engine and offline synchronisation

    A shallow embedding of the purchase-tracking backend:
    - [calculateBalances] (utils/transactionHelpers.js) over IEEE-754
      binary64 numbers, as JavaScript computes them;
    - the transaction routes (routes/transactions.js): the total computed
      on creation, update, close, add advance, add delivery;
    - the synchronisation routes (routes/sync.js): push and pull.
    - the synchronisation status, the creation and the detail of a
      transaction, the expense routes (routes/expenses.js), the provider
      routes (routes/providers.js), and the organization routes
      (routes/organizations.js) behind the middlewares of
      middleware/auth.js.

    The persistent store is the relational schema of the initial
    migration.  A table whose primary key is supplied by the client
    (Provider, Transaction) is a finite map keyed by the id; a table whose
    rows receive a generated id (Advance, Delivery, Expense, SyncLog) is
    the list of its rows in insertion order.  Columns that the storage
    layer fills by default and that no modelled route reads (generated ids,
    createdAt of movements and audit rows, Transaction.signatureUrl) are
    not represented. *)

From Stdlib Require Import ZArith QArith Qround Floats.
From stdpp Require Import gmap strings list fin_maps.

Local Open Scope Z_scope.

(** ** Data model (prisma migration, initial schema) *)

(** Timestamps are JavaScript [Date] values: milliseconds since the epoch. *)
Abbreviation Timestamp := Z.

Inductive TransactionStatus := ACTIVE | CLOSED.

#[global] Instance TransactionStatus_eq_dec : EqDecision TransactionStatus.
Proof. solve_decision. Defined.

Record Provider := mkProvider {
  provider_id : string;
  provider_name : string;
  provider_email : option string;
  provider_phone : option string;
  provider_address : option string;
  provider_notes : option string;
  provider_userId : option string;
  provider_organizationId : option string;
  provider_createdAt : Timestamp;
  provider_updatedAt : Timestamp
}.

Record Transaction := mkTransaction {
  transaction_id : string;
  contractNumber : string;
  description : option string;
  status : TransactionStatus;
  productServiceId : option string;
  quantity : option float;
  unitPrice : option float;
  totalAmount : option float;
  transactionDate : Timestamp;
  closedAt : option Timestamp;
  userId : string;
  organizationId : option string;
  providerId : string;
  createdAt : Timestamp;
  updatedAt : Timestamp
}.

Record Advance := mkAdvance {
  advance_amount : float;
  advance_description : option string;
  advance_transactionId : string
}.

Record Delivery := mkDelivery {
  delivery_quantity : float;
  delivery_description : option string;
  delivery_transactionId : string
}.

Record ExpenseCategory := mkExpenseCategory {
  category_id : string;
  category_name : string;
  category_isDefault : bool;
  category_userId : option string
}.

Record Expense := mkExpense {
  expense_id : string;
  expense_amount : float;
  expense_description : option string;
  expense_categoryId : string;
  expense_transactionId : option string;
  expense_updatedAt : Timestamp
}.

Record SyncLog := mkSyncLog {
  log_userId : string;
  syncType : string;
  recordsCount : nat;
  log_status : string;
  errorMessage : option string
}.

Record Store := mkStore {
  providers : gmap string Provider;
  transactions : gmap string Transaction;
  productServices : gset string;
  advances : list Advance;
  deliveries : list Delivery;
  expenses : list Expense;
  expenseCategories : list ExpenseCategory;
  syncLogs : list SyncLog
}.

(** ** JavaScript numbers *)

Module JS.

(** [ToNumber] on a nullable column: [null] converts to [+0]. *)
Definition ToNumber (v : option float) : float :=
  match v with Some x => x | None => 0%float end.

(** Truthiness of a nullable number: [null], [NaN], [+0] and [-0] are
    falsy. *)
Definition truthy (v : option float) : bool :=
  match v with
  | Some x => negb (PrimFloat.eqb x 0 || PrimFloat.is_nan x)
  | None => false
  end.

(** [a || b] where [b] is a number. *)
Definition or_num (a : option float) (b : float) : float :=
  if truthy a then ToNumber a else b.

(** [a > 0] on a nullable number. *)
Definition gt0 (a : option float) : bool :=
  PrimFloat.ltb 0 (ToNumber a).

(** The integer nearest to [n / d], ties towards plus infinity:
    floor (n/d + 1/2). *)
Definition round_half_up (n d : Z) : Z := (2 * n + d) / (2 * d).

(** An integer of magnitude below 2^53, as a number; a zero result keeps
    the sign of the argument of [Math.round]. *)
Definition of_int (negative : bool) (r : Z) : float :=
  let a := PrimFloat.of_uint63 (Uint63.of_Z (Z.abs r)) in
  if (r =? 0) then (if negative then (-0)%float else 0%float)
  else if (r <? 0) then (- a)%float else a.

(** [Math.round]: the integral number closest to [x], ties towards plus
    infinity.  A finite double is [(-1)^s * m * 2^e]; with [e >= 0] it is
    an integer already. *)
Definition Math_round (x : float) : float :=
  match Prim2SF x with
  | S754_finite s m e =>
      if (0 <=? e) then x
      else
        let n := if s then Z.neg m else Z.pos m in
        of_int s (round_half_up n (2 ^ (- e)))
  | _ => x
  end.

End JS.

(** ** utils/transactionHelpers.js *)

Record Balances := mkBalances {
  totalAdvances : float;
  totalDelivered : float;
  moneyBalance : float;
  productBalance : float;
  moneyProgress : float;
  productProgress : float
}.

Definition calculateBalances (transaction : Transaction)
    (advances : list Advance) (deliveries : list Delivery) : Balances :=
  let totalAdvances :=
    fold_left (fun sum adv => (sum + advance_amount adv)%float) advances 0%float in
  let totalDelivered :=
    fold_left (fun sum del => (sum + delivery_quantity del)%float) deliveries 0%float in
  let moneyBalance := (JS.or_num (totalAmount transaction) 0 - totalAdvances)%float in
  let productBalance := (JS.or_num (quantity transaction) 0 - totalDelivered)%float in
  let moneyProgress :=
    if JS.gt0 (totalAmount transaction)
    then ((totalAdvances / JS.ToNumber (totalAmount transaction)) * 100)%float
    else 0%float in
  let productProgress :=
    if JS.gt0 (quantity transaction)
    then ((totalDelivered / JS.ToNumber (quantity transaction)) * 100)%float
    else 0%float in
  {| totalAdvances := totalAdvances;
     totalDelivered := totalDelivered;
     moneyBalance := moneyBalance;
     productBalance := productBalance;
     moneyProgress := (JS.Math_round (moneyProgress * 100) / 100)%float;
     productProgress := (JS.Math_round (productProgress * 100) / 100)%float |}.

(** POST /api/transactions: [totalAmount || (quantity && unitPrice ?
    quantity * unitPrice : null)]. *)
Definition calculatedTotal (totalAmount quantity unitPrice : option float)
    : option float :=
  if JS.truthy totalAmount then totalAmount
  else if JS.truthy quantity && JS.truthy unitPrice
       then Some (JS.ToNumber quantity * JS.ToNumber unitPrice)%float
       else None.

(** [result] is [p] rounded to two decimals the way [calculateBalances]
    does it: [Math.round (p * 100) / 100]; and when the double [p * 100] is
    not an integer, of exact value [n / d], the numerator of the result is
    the integer [r] nearest to [n / d], ties going up. *)
Definition rounds_to_cents (p result : float) : Prop :=
  result = (JS.Math_round (p * 100) / 100)%float
  /\ forall s m e,
       Prim2SF (p * 100) = S754_finite s m e -> e < 0 ->
       let n := if s then Z.neg m else Z.pos m in
       let d := 2 ^ (- e) in
       exists r, result = (JS.of_int s r / 100)%float
                 /\ 2 * d * r <= 2 * n + d < 2 * d * (r + 1).

(** ** Storage layer (Prisma client over the relational schema) *)

Inductive PrismaError :=
| UniqueConstraintFailed (field : string)
| ForeignKeyConstraintFailed (field : string)
| RecordNotFound.

(** [error.message] *)
Definition message (e : PrismaError) : string :=
  match e with
  | UniqueConstraintFailed f => "Unique constraint failed on the fields: " +:+ f
  | ForeignKeyConstraintFailed f => "Foreign key constraint failed on the field: " +:+ f
  | RecordNotFound => "Record to update not found."
  end.

(** A storage call either throws or returns. *)
Definition Except (A : Type) : Type := PrismaError + A.

#[global] Instance Except_ret : MRet Except := fun _ x => inr x.
#[global] Instance Except_bind : MBind Except :=
  fun _ _ f c => match c with inl e => inl e | inr x => f x end.

Definition set_providers (m : gmap string Provider) (db : Store) : Store :=
  mkStore m (transactions db) (productServices db) (advances db)
          (deliveries db) (expenses db) (expenseCategories db) (syncLogs db).

Definition set_transactions (m : gmap string Transaction) (db : Store) : Store :=
  mkStore (providers db) m (productServices db) (advances db)
          (deliveries db) (expenses db) (expenseCategories db) (syncLogs db).

Definition set_advances (l : list Advance) (db : Store) : Store :=
  mkStore (providers db) (transactions db) (productServices db) l
          (deliveries db) (expenses db) (expenseCategories db) (syncLogs db).

Definition set_deliveries (l : list Delivery) (db : Store) : Store :=
  mkStore (providers db) (transactions db) (productServices db) (advances db)
          l (expenses db) (expenseCategories db) (syncLogs db).

Definition set_syncLogs (l : list SyncLog) (db : Store) : Store :=
  mkStore (providers db) (transactions db) (productServices db) (advances db)
          (deliveries db) (expenses db) (expenseCategories db) l.

Module prisma.

(** [provider.findFirst({ where: { id, userId } })]; [id] is the primary
    key, so at most one row matches. *)
Definition provider_findFirst (id user : string) (db : Store) : option Provider :=
  match providers db !! id with
  | Some p => if decide (provider_userId p = Some user) then Some p else None
  | None => None
  end.

(** [provider.update({ where: { id }, data })] *)
Definition provider_update (id : string) (data : Provider -> Provider)
    (db : Store) : Except Store :=
  match providers db !! id with
  | Some p => inr (set_providers (<[id := data p]> (providers db)) db)
  | None => inl RecordNotFound
  end.

(** [provider.create({ data })]: the primary key must be free. *)
Definition provider_create (row : Provider) (db : Store) : Except Store :=
  match providers db !! provider_id row with
  | Some _ => inl (UniqueConstraintFailed "id")
  | None => inr (set_providers (<[provider_id row := row]> (providers db)) db)
  end.

(** [transaction.findFirst({ where: { id, userId } })] *)
Definition transaction_findFirst (id user : string) (db : Store) : option Transaction :=
  match transactions db !! id with
  | Some t => if decide (userId t = user) then Some t else None
  | None => None
  end.

(** [transaction.findFirst({ where: { id, userId, status } })] *)
Definition transaction_findFirst_status (id user : string)
    (st : TransactionStatus) (db : Store) : option Transaction :=
  match transaction_findFirst id user db with
  | Some t => if decide (status t = st) then Some t else None
  | None => None
  end.

(** [transaction.update({ where: { id }, data })] *)
Definition transaction_update (id : string) (data : Transaction -> Transaction)
    (db : Store) : Except Store :=
  match transactions db !! id with
  | Some t => inr (set_transactions (<[id := data t]> (transactions db)) db)
  | None => inl RecordNotFound
  end.

(** [transaction.updateMany({ where: { id, userId, status }, data })]
    returns the number of rows changed. *)
Definition transaction_updateMany (id user : string) (st : TransactionStatus)
    (data : Transaction -> Transaction) (db : Store) : Store * nat :=
  match transaction_findFirst_status id user st db with
  | Some t => (set_transactions (<[id := data t]> (transactions db)) db, 1%nat)
  | None => (db, 0%nat)
  end.

(** [transaction.create({ data })]: primary key, then the unique index on
    [contractNumber], then the foreign keys to Provider and
    ProductService. *)
(** The foreign key from Transaction to ProductService is nullable. *)
Definition productService_exists (ref : option string) (db : Store) : bool :=
  match ref with
  | Some ps => bool_decide (ps ∈ productServices db)
  | None => true
  end.

Definition transaction_create (row : Transaction) (db : Store) : Except Store :=
  if decide (is_Some (transactions db !! transaction_id row))
  then inl (UniqueConstraintFailed "id")
  else if decide (map_Exists (fun _ t => contractNumber t = contractNumber row)
                             (transactions db))
  then inl (UniqueConstraintFailed "contractNumber")
  else if decide (providers db !! providerId row = None)
  then inl (ForeignKeyConstraintFailed "providerId")
  else if productService_exists (productServiceId row) db
  then inr (set_transactions (<[transaction_id row := row]> (transactions db)) db)
  else inl (ForeignKeyConstraintFailed "productServiceId").

Definition advance_create (row : Advance) (db : Store) : Store :=
  set_advances (advances db ++ [row]) db.

Definition delivery_create (row : Delivery) (db : Store) : Store :=
  set_deliveries (deliveries db ++ [row]) db.

(** The storage layer may be unreachable when the audit row is written. *)
Inductive Availability := Up | Down (reason : string).

Definition syncLog_create (a : Availability) (row : SyncLog) (db : Store)
    : string + Store :=
  match a with
  | Up => inr (set_syncLogs (syncLogs db ++ [row]) db)
  | Down reason => inl reason
  end.

End prisma.

(** ** routes/transactions.js *)

Inductive HttpResponse := Http (code : nat) (text : string).

(** Request body of PATCH /api/transactions/:id; [None] is an absent
    ([undefined]) field. *)
Record UpdateBody := mkUpdateBody {
  upd_description : option string;
  upd_quantity : option float;
  upd_unitPrice : option float;
  upd_totalAmount : option float
}.

(** The [data] object of the PATCH route: only the fields that are present
    are written; the storage layer stamps [updatedAt]. *)
Definition update_data (now : Timestamp) (b : UpdateBody) (t : Transaction)
    : Transaction :=
  mkTransaction (transaction_id t) (contractNumber t)
    (match upd_description b with Some d => Some d | None => description t end)
    (status t) (productServiceId t)
    (match upd_quantity b with Some q => Some q | None => quantity t end)
    (match upd_unitPrice b with Some p => Some p | None => unitPrice t end)
    (match upd_totalAmount b with Some a => Some a | None => totalAmount t end)
    (transactionDate t) (closedAt t) (userId t) (organizationId t)
    (providerId t) (createdAt t) now.

(** The handler of PATCH /api/transactions/:id; the route, with its
    validators, is [PATCH_transaction]. *)
Definition updateTransaction (now : Timestamp) (user id : string)
    (b : UpdateBody) (db : Store) : Store * HttpResponse :=
  let '(db', count) :=
    prisma.transaction_updateMany id user ACTIVE (update_data now b) db in
  if (count =? 0)%nat
  then (db', Http 404 "Transaction not found or cannot be edited")
  else (db', Http 200 "Transaction updated successfully").

(** The [data] object of the close route: [closedAt] is the handler's
    [new Date()], read at [now]; the storage layer stamps [updatedAt] when
    it writes, at [stamp]. *)
Definition close_data (now stamp : Timestamp) (t : Transaction) : Transaction :=
  mkTransaction (transaction_id t) (contractNumber t) (description t)
    CLOSED (productServiceId t) (quantity t) (unitPrice t) (totalAmount t)
    (transactionDate t) (Some now) (userId t) (organizationId t)
    (providerId t) (createdAt t) stamp.

(** The handler of POST /api/transactions/:id/close; the route is
    [POST_transaction_close]. *)
Definition closeTransaction (now stamp : Timestamp) (user id : string)
    (db : Store) : Store * HttpResponse :=
  let '(db', count) :=
    prisma.transaction_updateMany id user ACTIVE (close_data now stamp) db in
  if (count =? 0)%nat
  then (db', Http 404 "Transaction not found or already closed")
  else (db', Http 200 "Transaction closed successfully").

(** The handler of POST /api/transactions/:id/advances; the route is
    [POST_transaction_advances]. *)
Definition addAdvance (user id : string) (amount : float)
    (desc : option string) (db : Store) : Store * HttpResponse :=
  match prisma.transaction_findFirst_status id user ACTIVE db with
  | None => (db, Http 404 "Transaction not found or cannot be modified")
  | Some _ =>
      (prisma.advance_create (mkAdvance amount desc id) db,
       Http 201 "Advance added successfully")
  end.

(** The handler of POST /api/transactions/:id/deliveries; the route is
    [POST_transaction_deliveries]. *)
Definition addDelivery (user id : string) (qty : float)
    (desc : option string) (db : Store) : Store * HttpResponse :=
  match prisma.transaction_findFirst_status id user ACTIVE db with
  | None => (db, Http 404 "Transaction not found or cannot be modified")
  | Some _ =>
      (prisma.delivery_create (mkDelivery qty desc id) db,
       Http 201 "Delivery added successfully")
  end.

(** The movements recorded against a transaction. *)
Definition advances_of (id : string) (db : Store) : list Advance :=
  filter (fun a => advance_transactionId a = id) (advances db).

Definition deliveries_of (id : string) (db : Store) : list Delivery :=
  filter (fun d => delivery_transactionId d = id) (deliveries db).

(** ** routes/sync.js: push *)

(** The records of a push body that are objects, as the client sends
    them.  The handler never reads the owner a client may have put in a
    record.  In an optional field [None] is [null]; a timestamp is the time
    value of the date the handler makes of the field (see [valid_time]).
    A batch can also hold [null] in place of a record: see
    [pushNullable]. *)
Record ClientProvider := mkClientProvider {
  cp_id : string;
  cp_name : string;
  cp_email : option string;
  cp_phone : option string;
  cp_address : option string;
  cp_notes : option string;
  cp_userId : option string;
  cp_createdAt : Timestamp;
  cp_updatedAt : Timestamp
}.

Record ClientTransaction := mkClientTransaction {
  ct_id : string;
  ct_contractNumber : string;
  ct_description : option string;
  ct_quantity : option float;
  ct_unitPrice : option float;
  ct_totalAmount : option float;
  ct_status : TransactionStatus;
  ct_userId : option string;
  ct_providerId : string;
  ct_productServiceId : option string;
  ct_transactionDate : Timestamp;
  ct_createdAt : Timestamp;
  ct_updatedAt : Timestamp
}.

Record ClientExpense := mkClientExpense {
  ce_id : string;
  ce_amount : float;
  ce_description : option string;
  ce_categoryId : string;
  ce_transactionId : option string;
  ce_updatedAt : Timestamp
}.

Record PushBody := mkPushBody {
  body_transactions : list ClientTransaction;
  body_providers : list ClientProvider;
  body_expenses : list ClientExpense
}.

Record SyncError := mkSyncError { error_id : string; error_text : string }.

Record SyncResult := mkSyncResult {
  created : nat;
  updated : nat;
  errors : list SyncError
}.

Record Results := mkResults {
  results_transactions : SyncResult;
  results_providers : SyncResult;
  results_expenses : SyncResult
}.

Definition no_result : SyncResult := mkSyncResult 0 0 [].

Definition incr_created (r : SyncResult) : SyncResult :=
  mkSyncResult (S (created r)) (updated r) (errors r).

Definition incr_updated (r : SyncResult) : SyncResult :=
  mkSyncResult (created r) (S (updated r)) (errors r).

Definition push_error (e : SyncError) (r : SyncResult) : SyncResult :=
  mkSyncResult (created r) (updated r) (errors r ++ [e]).

(** [data] of [provider.update]. *)
Definition provider_update_data (c : ClientProvider) (p : Provider) : Provider :=
  mkProvider (provider_id p) (cp_name c) (cp_email c) (cp_phone c)
    (cp_address c) (cp_notes c) (provider_userId p)
    (provider_organizationId p) (provider_createdAt p) (cp_updatedAt c).

(** [data] of [provider.create]. *)
Definition provider_create_data (user : string) (c : ClientProvider) : Provider :=
  mkProvider (cp_id c) (cp_name c) (cp_email c) (cp_phone c)
    (cp_address c) (cp_notes c) (Some user) None
    (cp_createdAt c) (cp_updatedAt c).

(** The [try] block of the provider loop. *)
Definition syncProvider (user : string) (provider : ClientProvider)
    (db : Store) (r : SyncResult) : Except (Store * SyncResult) :=
  match prisma.provider_findFirst (cp_id provider) user db with
  | Some existing =>
      if (provider_updatedAt existing <? cp_updatedAt provider)
      then
        db' ← prisma.provider_update (cp_id provider)
                 (provider_update_data provider) db;
        mret (db', incr_updated r)
      else mret (db, r)
  | None =>
      db' ← prisma.provider_create (provider_create_data user provider) db;
      mret (db', incr_created r)
  end.

(** One iteration of the provider loop, [try { ... } catch (error)
    { ... }], on a record that is an object. *)
Definition pushProvider (user : string) (st : Store * SyncResult)
    (provider : ClientProvider) : Store * SyncResult :=
  match syncProvider user provider st.1 st.2 with
  | inr st' => st'
  | inl error =>
      (st.1, push_error (mkSyncError (cp_id provider) (message error)) st.2)
  end.

(** [data] of [transaction.update]. *)
Definition transaction_update_data (c : ClientTransaction) (t : Transaction)
    : Transaction :=
  mkTransaction (transaction_id t) (contractNumber t) (ct_description c)
    (ct_status c) (productServiceId t) (ct_quantity c) (ct_unitPrice c)
    (ct_totalAmount c) (transactionDate t) (closedAt t) (userId t)
    (organizationId t) (providerId t) (createdAt t) (ct_updatedAt c).

(** [data] of [transaction.create]. *)
Definition transaction_create_data (user : string) (c : ClientTransaction)
    : Transaction :=
  mkTransaction (ct_id c) (ct_contractNumber c) (ct_description c)
    (ct_status c) (ct_productServiceId c) (ct_quantity c) (ct_unitPrice c)
    (ct_totalAmount c) (ct_transactionDate c) None user None
    (ct_providerId c) (ct_createdAt c) (ct_updatedAt c).

(** The [try] block of the transaction loop. *)
Definition syncTransaction (user : string) (transaction : ClientTransaction)
    (db : Store) (r : SyncResult) : Except (Store * SyncResult) :=
  match prisma.transaction_findFirst (ct_id transaction) user db with
  | Some existing =>
      if (updatedAt existing <? ct_updatedAt transaction)
      then
        db' ← prisma.transaction_update (ct_id transaction)
                 (transaction_update_data transaction) db;
        mret (db', incr_updated r)
      else mret (db, r)
  | None =>
      db' ← prisma.transaction_create
               (transaction_create_data user transaction) db;
      mret (db', incr_created r)
  end.

(** One iteration of the transaction loop, on a record that is an
    object. *)
Definition pushTransaction (user : string) (st : Store * SyncResult)
    (transaction : ClientTransaction) : Store * SyncResult :=
  match syncTransaction user transaction st.1 st.2 with
  | inr st' => st'
  | inl error =>
      (st.1, push_error (mkSyncError (ct_id transaction) (message error)) st.2)
  end.

(** The two loops of the handler, providers first.  No loop runs over the
    submitted expenses. *)
Definition pushLoops (user : string) (body : PushBody) (db : Store)
    : Store * Results :=
  let '(db1, rp) := fold_left (pushProvider user) (body_providers body) (db, no_result) in
  let '(db2, rt) := fold_left (pushTransaction user) (body_transactions body) (db1, no_result) in
  (db2, mkResults rt rp no_result).

Definition submitted (body : PushBody) : nat :=
  (length (body_transactions body) + length (body_providers body)
   + length (body_expenses body))%nat.

Inductive PushResponse :=
| SyncCompleted (results : Results)
| SyncFailed.

(** POST /api/sync/push.  [a1] is the availability of the store when the
    success row is written, [a2] when the handler of the outer [catch]
    writes the failure row; when that write throws too the handler's
    promise rejects and no response is sent ([None]). *)
Definition push (a1 a2 : prisma.Availability) (user : string)
    (body : PushBody) (db : Store) : Store * option PushResponse :=
  let '(db', results) := pushLoops user body db in
  match prisma.syncLog_create a1
          (mkSyncLog user "push" (submitted body) "success" None) db' with
  | inr db'' => (db'', Some (SyncCompleted results))
  | inl error =>
      match prisma.syncLog_create a2
              (mkSyncLog user "push" 0 "failed" (Some error)) db' with
      | inr db'' => (db'', Some SyncFailed)
      | inl _ => (db', None)
      end
  end.

(** ** routes/sync.js: pull *)

(** An expense with [include: { category: true }]. *)
Record PulledExpense := mkPulledExpense {
  pulled_expense : Expense;
  pulled_category : option ExpenseCategory
}.

(** A transaction with its [advances], [deliveries] and [expenses]. *)
Record PulledTransaction := mkPulledTransaction {
  pulled_transaction : Transaction;
  pulled_advances : list Advance;
  pulled_deliveries : list Delivery;
  pulled_expenses : list PulledExpense
}.

Record PullData := mkPullData {
  data_transactions : list PulledTransaction;
  data_providers : list Provider;
  data_expenses : list PulledExpense;
  data_categories : list ExpenseCategory
}.

Inductive PullResponse :=
| PullCompleted (data : PullData) (syncTimestamp : Timestamp)
| PullFailed.

(** [lastSync ? new Date(lastSync) : new Date(0)]; the query parameter is
    given parsed, [None] when it is omitted. *)
Definition lastSyncDate (lastSync : option Timestamp) : Timestamp :=
  match lastSync with Some t => t | None => 0 end.

Definition with_category (db : Store) (e : Expense) : PulledExpense :=
  mkPulledExpense e
    (find (fun c => bool_decide (category_id c = expense_categoryId e))
          (expenseCategories db)).

Definition with_movements (db : Store) (t : Transaction) : PulledTransaction :=
  mkPulledTransaction t
    (advances_of (transaction_id t) db)
    (deliveries_of (transaction_id t) db)
    (with_category db <$>
       filter (fun e => expense_transactionId e = Some (transaction_id t))
              (expenses db)).

(** The four [findMany] queries of the handler. *)
Definition pull_transactions (user : string) (since : Timestamp) (db : Store)
    : list PulledTransaction :=
  with_movements db <$>
    (map_to_list
       (filter (fun kv => userId kv.2 = user /\ since < updatedAt kv.2)
               (transactions db))).*2.

Definition pull_providers (user : string) (since : Timestamp) (db : Store)
    : list Provider :=
  (map_to_list
     (filter (fun kv => provider_userId kv.2 = Some user
                        /\ since < provider_updatedAt kv.2)
             (providers db))).*2.

Definition pull_expenses (since : Timestamp) (db : Store) : list PulledExpense :=
  with_category db <$>
    filter (fun e => expense_transactionId e = None /\ since < expense_updatedAt e)
           (expenses db).

Definition pull_categories (user : string) (db : Store) : list ExpenseCategory :=
  filter (fun c => category_isDefault c = true \/ category_userId c = Some user)
         (expenseCategories db).

(** GET /api/sync/pull *)
Definition pull (a1 a2 : prisma.Availability) (now : Timestamp)
    (user : string) (lastSync : option Timestamp) (db : Store)
    : Store * option PullResponse :=
  let since := lastSyncDate lastSync in
  let transactions := pull_transactions user since db in
  let providers := pull_providers user since db in
  let expenses := pull_expenses since db in
  let categories := pull_categories user db in
  match prisma.syncLog_create a1
          (mkSyncLog user "pull"
             (length transactions + length providers + length expenses)
             "success" None) db with
  | inr db' =>
      (db', Some (PullCompleted
                    (mkPullData transactions providers expenses categories) now))
  | inl error =>
      match prisma.syncLog_create a2
              (mkSyncLog user "pull" 0 "failed" (Some error)) db with
      | inr db' => (db', Some PullFailed)
      | inl _ => (db, None)
      end
  end.

(** ** The wording of the specification, for comparison *)

(** Half-up rounding to two decimal places, on exact rationals. *)
Definition round2_half_up (q : Q) : Q :=
  Qred (Qfloor (q * 100 + (1 # 2))%Q # 100).

(** "if totalAgreedMoney is 0 then moneyProgressPct is 0; otherwise it is
    100 x totalMoneyIn / totalAgreedMoney rounded to 2 decimal places" *)
Definition spec_progressPct (totalIn totalAgreed : Q) : Q :=
  if Qeq_bool totalAgreed 0 then 0%Q
  else round2_half_up (100 * totalIn / totalAgreed)%Q.

(** The rational a finite double stands for. *)
Definition exact (x : float) : option Q :=
  match Prim2SF x with
  | S754_zero _ => Some 0%Q
  | S754_finite s m e =>
      Some (Qred (inject_Z (if s then Z.neg m else Z.pos m) * Qpower 2 e)%Q)
  | _ => None
  end.

(** An expense belongs to a user through the transaction it is attached to
    (routes/expenses.js, "Verify ownership through transaction"); the
    Expense table has no owner column. *)
Definition expense_owner (db : Store) (e : Expense) : option string :=
  match expense_transactionId e with
  | Some t => userId <$> transactions db !! t
  | None => None
  end.

(** ** Example inputs *)

Definition example_operation : Transaction :=
  mkTransaction "op-1" "20250127-A3F9" None ACTIVE None
    (Some 100%float) (Some 10%float)
    (calculatedTotal None (Some 100%float) (Some 10%float))
    0 None "user-1" None "prov-1" 0 0.

Definition example_advances : list Advance :=
  [mkAdvance 200 None "op-1"; mkAdvance 150 None "op-1"].

Definition example_deliveries : list Delivery :=
  [mkDelivery 40 None "op-1"; mkDelivery 20 None "op-1"].

(** ** Outcomes of one loop iteration

    What one iteration of a push loop does to the store and to the
    collection's counters, by case of the lookup. *)

Inductive provider_step (user : string) (db : Store) (r : ClientProvider)
    : Store -> (SyncResult -> SyncResult) -> Prop :=
| provider_overwritten e :
    providers db !! cp_id r = Some e ->
    provider_userId e = Some user ->
    provider_updatedAt e < cp_updatedAt r ->
    provider_step user db r
      (set_providers (<[cp_id r := provider_update_data r e]> (providers db)) db)
      incr_updated
| provider_skipped e :
    providers db !! cp_id r = Some e ->
    provider_userId e = Some user ->
    cp_updatedAt r <= provider_updatedAt e ->
    provider_step user db r db id
| provider_created :
    providers db !! cp_id r = None ->
    provider_step user db r
      (set_providers (<[cp_id r := provider_create_data user r]> (providers db)) db)
      incr_created
| provider_rejected e :
    providers db !! cp_id r = Some e ->
    provider_userId e <> Some user ->
    provider_step user db r db
      (push_error (mkSyncError (cp_id r) (message (UniqueConstraintFailed "id")))).

Inductive transaction_step (user : string) (db : Store) (r : ClientTransaction)
    : Store -> (SyncResult -> SyncResult) -> Prop :=
| transaction_overwritten e :
    transactions db !! ct_id r = Some e ->
    userId e = user ->
    updatedAt e < ct_updatedAt r ->
    transaction_step user db r
      (set_transactions (<[ct_id r := transaction_update_data r e]> (transactions db)) db)
      incr_updated
| transaction_skipped e :
    transactions db !! ct_id r = Some e ->
    userId e = user ->
    ct_updatedAt r <= updatedAt e ->
    transaction_step user db r db id
| transaction_created :
    transactions db !! ct_id r = None ->
    prisma.transaction_create (transaction_create_data user r) db
    = inr (set_transactions
             (<[ct_id r := transaction_create_data user r]> (transactions db)) db) ->
    transaction_step user db r
      (set_transactions
         (<[ct_id r := transaction_create_data user r]> (transactions db)) db)
      incr_created
| transaction_rejected err :
    prisma.transaction_findFirst (ct_id r) user db = None ->
    prisma.transaction_create (transaction_create_data user r) db = inl err ->
    transaction_step user db r db
      (push_error (mkSyncError (ct_id r) (message err))).

(** The server holds a copy of record [id], owned by [user], at least as
    recent as [t]. *)
Definition provider_settled (user id : string) (t : Timestamp) (db : Store) : Prop :=
  exists e, providers db !! id = Some e
            /\ provider_userId e = Some user /\ t <= provider_updatedAt e.

Definition transaction_settled (user id : string) (t : Timestamp) (db : Store) : Prop :=
  exists e, transactions db !! id = Some e
            /\ userId e = user /\ t <= updatedAt e.

(** Ownership is respected between two states of a table: every row of the
    later state is either the very row the earlier state had under that id,
    or owned by [user]; and every row the earlier state had that is not
    owned by [user] is still there, unchanged. *)
Definition providers_guarded (user : string) (m m' : gmap string Provider) : Prop :=
  (forall id p', m' !! id = Some p' ->
                 m !! id = Some p' \/ provider_userId p' = Some user)
  /\ (forall id p, m !! id = Some p -> provider_userId p <> Some user ->
                   m' !! id = Some p).

Definition transactions_guarded (user : string) (m m' : gmap string Transaction) : Prop :=
  (forall id t', m' !! id = Some t' -> m !! id = Some t' \/ userId t' = user)
  /\ (forall id t, m !! id = Some t -> userId t <> user -> m' !! id = Some t).

(** Counters of two stretches of a loop, put together. *)
Definition merge_result (r1 r2 : SyncResult) : SyncResult :=
  mkSyncResult (created r1 + created r2) (updated r1 + updated r2)
               (errors r1 ++ errors r2).

(** ** A small store *)

Definition alice_provider : Provider :=
  mkProvider "prov-1" "Granja Norte" None None None None (Some "alice") None 100 500.

Definition bob_provider : Provider :=
  mkProvider "prov-2" "Acopio Sur" None None None None (Some "bob") None 100 200.

Definition closed_operation : Transaction :=
  mkTransaction "op-9" "20250101-AAAA" None CLOSED None
    (Some 100%float) (Some 10%float) (Some 1000%float)
    100 (Some 300) "alice" None "prov-1" 100 300.

Definition general_expense : Expense :=
  mkExpense "exp-1" 12%float None "cat-1" None 250.

Definition small_store : Store :=
  mkStore (<["prov-1" := alice_provider]> (<["prov-2" := bob_provider]> ∅))
          (<["op-9" := closed_operation]> ∅)
          ∅ [] [] [general_expense] [] [].

(** A copy of alice's provider older than the server's. *)
Definition stale_provider : ClientProvider :=
  mkClientProvider "prov-1" "Granja" None None None None None 100 400.

(** A new provider whose id is already taken by bob's. *)
Definition colliding_provider : ClientProvider :=
  mkClientProvider "prov-2" "Acopio" None None None None (Some "alice") 100 900.

Definition fresh_provider : ClientProvider :=
  mkClientProvider "prov-3" "Molino" None None None None None 100 100.



Definition submitted_expense : ClientExpense :=
  mkClientExpense "exp-7" 30%float None "cat-1" None 900.

(** Two copies of one new operation in a batch: the first names a provider
    that does not exist, the second, older, is well formed. *)
Definition dangling_operation : ClientTransaction :=
  mkClientTransaction "op-1" "20250127-A3F9" None
    (Some 100%float) (Some 10%float) (Some 1000%float)
    ACTIVE None "prov-0" None 100 100 700.

Definition sound_operation : ClientTransaction :=
  mkClientTransaction "op-1" "20250127-A3F9" None
    (Some 100%float) (Some 10%float) (Some 1000%float)
    ACTIVE None "prov-1" None 100 100 600.

(** ** The exposed mutations *)

Inductive Mutation :=
| Close (now stamp : Timestamp) (user id : string)
| Update (now : Timestamp) (user id : string) (b : UpdateBody)
| AddAdvance (user id : string) (amount : float) (desc : option string)
| AddDelivery (user id : string) (qty : float) (desc : option string)
| Push (a1 a2 : prisma.Availability) (user : string) (body : PushBody).

Definition run (m : Mutation) (db : Store) : Store :=
  match m with
  | Close now stamp user id => (closeTransaction now stamp user id db).1
  | Update now user id b => (updateTransaction now user id b db).1
  | AddAdvance user id amount desc => (addAdvance user id amount desc db).1
  | AddDelivery user id qty desc => (addDelivery user id qty desc db).1
  | Push a1 a2 user body => (push a1 a2 user body db).1
  end.




(** ** Users and organizations *)

Inductive Role := ADMIN | OPERATOR.

#[global] Instance Role_eq_dec : EqDecision Role.
Proof. solve_decision. Defined.

Record User := mkUser {
  user_id : string;
  user_email : string;
  user_role : Role
}.

Record Organization := mkOrganization {
  organization_id : string;
  organization_name : string;
  organization_description : option string;
  createdById : string
}.

(** The User table by its unique [email], the Organization table by its id,
    and the OrganizationMember table by its unique pair (userId,
    organizationId), each row holding the member's role. *)
Record Directory := mkDirectory {
  users : gmap string User;
  organizations : gmap string Organization;
  members : gmap (string * string) Role
}.

Definition set_members (m : gmap (string * string) Role) (dir : Directory)
    : Directory :=
  mkDirectory (users dir) (organizations dir) m.

(** A string in a condition: absent and empty are falsy. *)
Definition truthy_string (s : option string) : option string :=
  match s with
  | Some "" => None
  | _ => s
  end.

(** ** routes/sync.js: status *)

Record SyncStatus := mkSyncStatus {
  lastSync : option SyncLog;
  history : list SyncLog
}.

(** GET /api/sync/status.  The rows of the SyncLog table are kept in
    insertion order, which is the order of [createdAt] (the storage layer
    stamps it when the row is inserted), so [orderBy createdAt desc] is the
    reversed list.  [lastSync] is given as the row whose [createdAt] the
    handler sends. *)
Definition syncStatus (user : string) (db : Store) : SyncStatus :=
  let syncLogs :=
    take 20 (reverse (filter (fun l => log_userId l = user) (syncLogs db))) in
  mkSyncStatus
    (find (fun log => bool_decide (log_status log = "success")) syncLogs)
    syncLogs.

(** ** routes/transactions.js and routes/expenses.js: creation and deletion *)

Definition set_expenses (l : list Expense) (db : Store) : Store :=
  mkStore (providers db) (transactions db) (productServices db) (advances db)
          (deliveries db) l (expenseCategories db) (syncLogs db).

(** [expense.create({ data })]: primary key, then the foreign keys to
    ExpenseCategory and, when the expense is attached, to Transaction. *)
Definition expense_create (row : Expense) (db : Store) : Except Store :=
  if bool_decide (Exists (fun e => expense_id e = expense_id row) (expenses db))
  then inl (UniqueConstraintFailed "id")
  else if bool_decide (Exists (fun c => category_id c = expense_categoryId row)
                              (expenseCategories db))
  then match expense_transactionId row with
       | Some t =>
           if decide (is_Some (transactions db !! t))
           then inr (set_expenses (expenses db ++ [row]) db)
           else inl (ForeignKeyConstraintFailed "transactionId")
       | None => inr (set_expenses (expenses db ++ [row]) db)
       end
  else inl (ForeignKeyConstraintFailed "categoryId").

(** Request body of POST /api/transactions; [None] is an absent field. *)
Record CreateBody := mkCreateBody {
  new_providerId : string;
  new_productServiceId : option string;
  new_description : option string;
  new_quantity : option float;
  new_unitPrice : option float;
  new_totalAmount : option float;
  new_organizationId : option string
}.

(** The foreign key from a row to Organization is nullable. *)
Definition organization_exists (ref : option string) (dir : Directory) : bool :=
  match ref with
  | Some o => bool_decide (is_Some (organizations dir !! o))
  | None => true
  end.

(** The handler of POST /api/transactions (the route is
    [POST_transactions]).  The generated id, the contract number made
    by [generateContractNumber] from the date and a random part, and the
    time of the insertion are inputs. *)
Definition createTransaction (newId contractNumber : string) (now : Timestamp)
    (user : string) (b : CreateBody) (dir : Directory) (db : Store)
    : Store * HttpResponse :=
  let calculatedTotal :=
    calculatedTotal (new_totalAmount b) (new_quantity b) (new_unitPrice b) in
  match
    (if organization_exists (new_organizationId b) dir
     then prisma.transaction_create
            (mkTransaction newId contractNumber (new_description b) ACTIVE
               (new_productServiceId b) (new_quantity b) (new_unitPrice b)
               calculatedTotal now None user (new_organizationId b)
               (new_providerId b) now now)
            db
     else inl (ForeignKeyConstraintFailed "organizationId"))
  with
  | inr db' => (db', Http 201 "Transaction created successfully")
  | inl _ => (db, Http 500 "Failed to create transaction")
  end.

(** The handler of POST /api/transactions/:id/expenses; the route is
    [POST_transaction_expenses]. *)
Definition addExpense (newId : string) (now : Timestamp) (user id : string)
    (amount : float) (categoryId : string) (desc : option string) (db : Store)
    : Store * HttpResponse :=
  match prisma.transaction_findFirst id user db with
  | None => (db, Http 404 "Transaction not found")
  | Some _ =>
      match expense_create (mkExpense newId amount desc categoryId (Some id) now) db with
      | inr db' => (db', Http 201 "Expense added successfully")
      | inl _ => (db, Http 500 "Failed to add expense")
      end
  end.

(** The handler of POST /api/expenses: a general expense.  The route
    checks the amount and the category id before it. *)
Definition createExpense (newId : string) (now : Timestamp)
    (amount : float) (categoryId : string) (desc : option string) (db : Store)
    : Store * HttpResponse :=
  match expense_create (mkExpense newId amount desc categoryId None now) db with
  | inr db' => (db', Http 201 "Expense created successfully")
  | inl _ => (db, Http 500 "Failed to create expense")
  end.

(** The [where] of DELETE /api/expenses/:id: the expense is attached to a
    transaction of the caller, or to none. *)
Definition expense_deletable (user id : string) (db : Store) (e : Expense) : bool :=
  bool_decide (expense_id e = id)
  && (bool_decide (expense_owner db e = Some user)
      || bool_decide (expense_transactionId e = None)).

(** The handler of DELETE /api/expenses/:id; the route is
    [DELETE_expense]. *)
Definition deleteExpense (user id : string) (db : Store) : Store * HttpResponse :=
  match find (expense_deletable user id db) (expenses db) with
  | None => (db, Http 404 "Expense not found")
  | Some _ =>
      (set_expenses (filter (fun e => expense_id e <> id) (expenses db)) db,
       Http 200 "Expense deleted successfully")
  end.

(** ** routes/providers.js *)

(** The [OR] of the provider routes: the provider is the caller's, or
    belongs to an organization the caller is a member of. *)
Definition provider_accessible (dir : Directory) (user : string) (p : Provider)
    : bool :=
  bool_decide (provider_userId p = Some user)
  || match provider_organizationId p with
     | Some o => bool_decide (is_Some (members dir !! (user, o)))
     | None => false
     end.

Record ProviderBody := mkProviderBody {
  pb_name : string;
  pb_email : option string;
  pb_phone : option string;
  pb_address : option string;
  pb_notes : option string;
  pb_organizationId : option string
}.

(** The handler of POST /api/providers:
    [userId: organizationId ? null : req.user.id]; the route is
    [POST_providers]. *)
Definition createProvider (newId : string) (now : Timestamp) (user : string)
    (b : ProviderBody) (dir : Directory) (db : Store) : Store * HttpResponse :=
  let organizationId := truthy_string (pb_organizationId b) in
  match
    (if organization_exists organizationId dir
     then prisma.provider_create
            (mkProvider newId (pb_name b) (pb_email b) (pb_phone b)
               (pb_address b) (pb_notes b)
               (match organizationId with Some _ => None | None => Some user end)
               organizationId now now)
            db
     else inl (ForeignKeyConstraintFailed "organizationId"))
  with
  | inr db' => (db', Http 201 "Provider created successfully")
  | inl _ => (db, Http 500 "Failed to create provider")
  end.

(** Request body of PATCH /api/providers/:id; [None] is an absent field. *)
Record ProviderPatch := mkProviderPatch {
  pp_name : option string;
  pp_email : option string;
  pp_phone : option string;
  pp_address : option string;
  pp_notes : option string
}.

(** The [data] of the PATCH route: [name] is written when truthy, the other
    fields when present. *)
Definition provider_patch_data (now : Timestamp) (b : ProviderPatch) (p : Provider)
    : Provider :=
  mkProvider (provider_id p)
    (match truthy_string (pp_name b) with Some n => n | None => provider_name p end)
    (match pp_email b with Some e => Some e | None => provider_email p end)
    (match pp_phone b with Some e => Some e | None => provider_phone p end)
    (match pp_address b with Some e => Some e | None => provider_address p end)
    (match pp_notes b with Some e => Some e | None => provider_notes p end)
    (provider_userId p) (provider_organizationId p) (provider_createdAt p) now.

(** The handler of PATCH /api/providers/:id; the route is
    [PATCH_provider]. *)
Definition updateProvider (now : Timestamp) (user id : string)
    (b : ProviderPatch) (dir : Directory) (db : Store) : Store * HttpResponse :=
  match providers db !! id with
  | Some p =>
      if provider_accessible dir user p
      then (set_providers (<[id := provider_patch_data now b p]> (providers db)) db,
            Http 200 "Provider updated successfully")
      else (db, Http 404 "Provider not found or access denied")
  | None => (db, Http 404 "Provider not found or access denied")
  end.

Inductive DeleteProviderResponse :=
| ProviderDeleted
| ProviderHasActive (activeTransactions : nat)
| ProviderNotFound
| ProviderDeleteFailed
| ProviderValidationFailed.

(** [transaction.count({ where: { providerId, status: 'ACTIVE' } })] *)
Definition activeTransactions_of (id : string) (db : Store) : nat :=
  size (filter (fun kv => providerId kv.2 = id /\ status kv.2 = ACTIVE)
               (transactions db)).

(** The foreign key from Transaction to Provider restricts deletion. *)
Definition provider_referenced (id : string) (db : Store) : Prop :=
  map_Exists (fun _ t => providerId t = id) (transactions db).

(** The handler of DELETE /api/providers/:id; the route is
    [DELETE_provider]. *)
Definition deleteProvider (user id : string) (dir : Directory) (db : Store)
    : Store * DeleteProviderResponse :=
  let transactionCount := activeTransactions_of id db in
  if (0 <? transactionCount)%nat
  then (db, ProviderHasActive transactionCount)
  else
    match providers db !! id with
    | Some p =>
        if provider_accessible dir user p
        then if decide (provider_referenced id db)
             then (db, ProviderDeleteFailed)
             else (set_providers (delete id (providers db)) db, ProviderDeleted)
        else (db, ProviderNotFound)
    | None => (db, ProviderNotFound)
    end.

(** ** middleware/auth.js and routes/organizations.js *)

Inductive Access :=
| Next (organizationMembership : option Role)
| Forbidden (error : string).

(** [checkOrganizationAccess]: the organization is read from
    [req.params.organizationId || req.body.organizationId]; when there is
    none the request goes on with no membership set.  The body is the
    object the JSON body parser leaves in [req.body]; [None] is a field it
    does not have. *)
Definition checkOrganizationAccess (user : string)
    (params_organizationId body_organizationId : option string)
    (dir : Directory) : Access :=
  let organizationId :=
    match truthy_string params_organizationId with
    | Some o => Some o
    | None => truthy_string body_organizationId
    end in
  match organizationId with
  | None => Next None
  | Some o =>
      match members dir !! (user, o) with
      | Some role => Next (Some role)
      | None =>
          match organizations dir !! o with
          | Some org =>
              if decide (createdById org = user)
              then Next None
              else Forbidden "Access denied to this organization"
          | None => Forbidden "Access denied to this organization"
          end
      end
  end.

(** [requireOrganizationAdmin] *)
Definition requireOrganizationAdmin (organizationMembership : option Role)
    : option string :=
  match organizationMembership with
  | None => Some "Organization membership required"
  | Some ADMIN => None
  | Some OPERATOR => Some "Organization admin access required"
  end.

(** The two middlewares in front of the member routes.  The paths of
    routes/organizations.js name their parameters [id] and [userId], so
    [req.params.organizationId] is undefined there. *)
Definition memberRouteGuard (user : string) (body_organizationId : option string)
    (dir : Directory) : option string :=
  match checkOrganizationAccess user None body_organizationId dir with
  | Forbidden e => Some e
  | Next m => requireOrganizationAdmin m
  end.

(** The handler of POST /api/organizations; the organization's id is
    generated. *)
Definition createOrganization (newId : string) (user : string)
    (name : string) (desc : option string) (dir : Directory)
    : Directory * HttpResponse :=
  match organizations dir !! newId, members dir !! (user, newId) with
  | None, None =>
      (mkDirectory (users dir)
         (<[newId := mkOrganization newId name desc user]> (organizations dir))
         (<[(user, newId) := ADMIN]> (members dir)),
       Http 201 "Organization created successfully")
  | _, _ => (dir, Http 500 "Failed to create organization")
  end.

Inductive OrganizationResponse :=
| OrganizationFound (organization : Organization) (members : list (string * Role))
| OrganizationError (code : nat) (error : string).

(** The members of an organization, with their roles. *)
Definition members_of (id : string) (dir : Directory) : list (string * Role) :=
  (fun kv => (kv.1.1, kv.2))
    <$> map_to_list (filter (fun kv => kv.1.2 = id) (members dir)).

(** GET /api/organizations/:id, past the check of the id: the access
    middleware, then the handler. *)
Definition getOrganization (user id : string) (body_organizationId : option string)
    (dir : Directory) : OrganizationResponse :=
  match checkOrganizationAccess user None body_organizationId dir with
  | Forbidden e => OrganizationError 403 e
  | Next _ =>
      match organizations dir !! id with
      | Some org => OrganizationFound org (members_of id dir)
      | None => OrganizationError 404 "Organization not found"
      end
  end.

(** POST /api/organizations/:id/members past its validators: the two
    middlewares, then the handler; [role] defaults to OPERATOR.  The route
    is [POST_organization_members]. *)
Definition addMember (user id : string) (body_organizationId : option string)
    (email : string) (role : option Role) (dir : Directory)
    : Directory * HttpResponse :=
  match memberRouteGuard user body_organizationId dir with
  | Some e => (dir, Http 403 e)
  | None =>
      match users dir !! email with
      | None => (dir, Http 404 "User not found")
      | Some u =>
          match members dir !! (user_id u, id) with
          | Some _ => (dir, Http 409 "User is already a member")
          | None =>
              if decide (is_Some (organizations dir !! id))
              then (set_members
                      (<[(user_id u, id) := default OPERATOR role]> (members dir)) dir,
                    Http 201 "Member added successfully")
              else (dir, Http 500 "Failed to add member")
          end
      end
  end.

(** PATCH /api/organizations/:id/members/:userId past its validators;
    the route is [PATCH_organization_member]. *)
Definition updateMemberRole (user id userId : string)
    (body_organizationId : option string) (role : Role) (dir : Directory)
    : Directory * HttpResponse :=
  match memberRouteGuard user body_organizationId dir with
  | Some e => (dir, Http 403 e)
  | None =>
      match members dir !! (userId, id) with
      | Some _ =>
          (set_members (<[(userId, id) := role]> (members dir)) dir,
           Http 200 "Role updated successfully")
      | None => (dir, Http 500 "Failed to update role")
      end
  end.

(** DELETE /api/organizations/:id/members/:userId past its validators;
    the route is [DELETE_organization_member]. *)
Definition removeMember (user id userId : string)
    (body_organizationId : option string) (dir : Directory)
    : Directory * HttpResponse :=
  match memberRouteGuard user body_organizationId dir with
  | Some e => (dir, Http 403 e)
  | None =>
      match members dir !! (userId, id) with
      | Some _ =>
          (set_members (delete (userId, id) (members dir)) dir,
           Http 200 "Member removed successfully")
      | None => (dir, Http 500 "Failed to remove member")
      end
  end.

(** ** routes/transactions.js: one transaction with its balances *)




(** ** The validators in front of the handlers

    Every route runs its express-validator chain and [validate]
    (middleware/validation.js) before its handler: when a check fails the
    answer is 400 "Validation failed" and the handler is not run; the
    sanitizers of the chain ([trim]) rewrite the body the handler reads.
    The definitions above are the handlers; the routes follow.  In both,
    [user] is the id of the authenticated user of the request. *)

(** The string checks of the validator library, which is not part of the
    repository. *)
Class Validator := mkValidator {
  isUUID : string -> bool;
  isEmail : string -> bool;
  trim : string -> string
}.


(** [optional()]: an absent field passes. *)
Definition optional {A : Type} (check : A -> bool) (field : option A) : bool :=
  match field with
  | Some x => check x
  | None => true
  end.

(** [notEmpty()] *)
Definition notEmpty (s : string) : bool := negb (String.eqb s "").


(** The answer of [validate] when a check failed. *)
Definition validation_failed : HttpResponse := Http 400 "Validation failed".

Section Routes.

Context `{V : Validator}.




(** router.post('/:id/close') *)
Definition POST_transaction_close (now stamp : Timestamp) (user id : string)
    (db : Store) : Store * HttpResponse :=
  if isUUID id then closeTransaction now stamp user id db
  else (db, validation_failed).




(** router.delete('/:id') of routes/expenses.js *)
Definition DELETE_expense (user id : string) (db : Store) : Store * HttpResponse :=
  if isUUID id then deleteExpense user id db else (db, validation_failed).

(** router.post('/') of routes/providers.js *)
Definition POST_providers (newId : string) (now : Timestamp) (user : string)
    (b : ProviderBody) (dir : Directory) (db : Store) : Store * HttpResponse :=
  if notEmpty (trim (pb_name b))
     && optional isEmail (pb_email b)
     && optional isUUID (pb_organizationId b)
  then createProvider newId now user
         (mkProviderBody (trim (pb_name b)) (pb_email b) (trim <$> pb_phone b)
            (trim <$> pb_address b) (trim <$> pb_notes b) (pb_organizationId b))
         dir db
  else (db, validation_failed).

(** router.patch('/:id') of routes/providers.js *)
Definition PATCH_provider (now : Timestamp) (user id : string)
    (b : ProviderPatch) (dir : Directory) (db : Store) : Store * HttpResponse :=
  if isUUID id
     && optional (fun name => notEmpty (trim name)) (pp_name b)
     && optional isEmail (pp_email b)
  then updateProvider now user id
         (mkProviderPatch (trim <$> pp_name b) (pp_email b) (trim <$> pp_phone b)
            (trim <$> pp_address b) (trim <$> pp_notes b))
         dir db
  else (db, validation_failed).

(** router.delete('/:id') of routes/providers.js *)
Definition DELETE_provider (user id : string) (dir : Directory) (db : Store)
    : Store * DeleteProviderResponse :=
  if isUUID id then deleteProvider user id dir db
  else (db, ProviderValidationFailed).

(** router.post('/:id/members'); a [role] of the body is one of the two
    roles by its type. *)
Definition POST_organization_members (user id : string)
    (body_organizationId : option string) (email : string) (role : option Role)
    (dir : Directory) : Directory * HttpResponse :=
  if isUUID id && isEmail email
  then addMember user id body_organizationId email role dir
  else (dir, validation_failed).

(** router.patch('/:id/members/:userId') *)
Definition PATCH_organization_member (user id userId : string)
    (body_organizationId : option string) (role : Role) (dir : Directory)
    : Directory * HttpResponse :=
  if isUUID id && isUUID userId
  then updateMemberRole user id userId body_organizationId role dir
  else (dir, validation_failed).

(** router.delete('/:id/members/:userId') *)
Definition DELETE_organization_member (user id userId : string)
    (body_organizationId : option string) (dir : Directory)
    : Directory * HttpResponse :=
  if isUUID id && isUUID userId
  then removeMember user id userId body_organizationId dir
  else (dir, validation_failed).

End Routes.

(** ** routes/sync.js: push of a batch that holds [null]

    The validators of the push route ask for arrays and nothing more, so an
    element of a batch can be [null].  Reading [provider.id] of [null]
    throws a TypeError inside the [try] block; the [catch] block reads
    [provider.id] again to report the record, throws in its turn, and the
    error leaves the loop for the outer [catch]. *)

Record NullablePushBody := mkNullablePushBody {
  nullable_transactions : list (option ClientTransaction);
  nullable_providers : list (option ClientProvider);
  nullable_expenses : list (option ClientExpense)
}.

(** [error.message] of the TypeError. *)
Definition null_id_message : string :=
  "Cannot read properties of null (reading 'id')".

(** A loop of the handler over a batch: the state when the loop ends, and
    the message of the error that ended it early, if any. *)
Fixpoint pushNullableLoop {R : Type}
    (iteration : Store * SyncResult -> R -> Store * SyncResult)
    (batch : list (option R)) (st : Store * SyncResult)
    : (Store * SyncResult) * option string :=
  match batch with
  | [] => (st, None)
  | Some record :: rest => pushNullableLoop iteration rest (iteration st record)
  | None :: _ => (st, Some null_id_message)
  end.

Definition submitted_nullable (body : NullablePushBody) : nat :=
  (length (nullable_transactions body) + length (nullable_providers body)
   + length (nullable_expenses body))%nat.

(** The outer [catch] of the handler. *)
Definition push_failed (a2 : prisma.Availability) (user error : string)
    (db : Store) : Store * option PushResponse :=
  match prisma.syncLog_create a2
          (mkSyncLog user "push" 0 "failed" (Some error)) db with
  | inr db' => (db', Some SyncFailed)
  | inl _ => (db, None)
  end.

(** POST /api/sync/push on such a batch; [a1] and [a2] as for [push]. *)
Definition pushNullable (a1 a2 : prisma.Availability) (user : string)
    (body : NullablePushBody) (db : Store) : Store * option PushResponse :=
  let '((db1, rp), thrown1) :=
    pushNullableLoop (pushProvider user) (nullable_providers body) (db, no_result) in
  match thrown1 with
  | Some error => push_failed a2 user error db1
  | None =>
      let '((db2, rt), thrown2) :=
        pushNullableLoop (pushTransaction user) (nullable_transactions body)
                         (db1, no_result) in
      match thrown2 with
      | Some error => push_failed a2 user error db2
      | None =>
          match prisma.syncLog_create a1
                  (mkSyncLog user "push" (submitted_nullable body) "success" None)
                  db2 with
          | inr db3 => (db3, Some (SyncCompleted (mkResults rt rp no_result)))
          | inl error => push_failed a2 user error db2
          end
      end
  end.

(** A batch of objects, as a batch whose elements may be [null]. *)
Definition objects (body : PushBody) : NullablePushBody :=
  mkNullablePushBody (Some <$> body_transactions body)
                     (Some <$> body_providers body)
                     (Some <$> body_expenses body).

(** ** Dates of a pushed record

    [new Date(v)] is an Invalid Date when [v] is no time value: a number
    beyond 8.64e15 milliseconds either side of the epoch, or an absent or
    unreadable field.  An Invalid Date is newer than no date, and the
    storage layer refuses to write one.  The timestamps of a record stand
    for the dates the handler makes of them when they are in this range. *)
Definition valid_time (t : Timestamp) : Prop :=
  -8640000000000000 <= t <= 8640000000000000.

Definition provider_dates_valid (r : ClientProvider) : Prop :=
  valid_time (cp_createdAt r) /\ valid_time (cp_updatedAt r).

Definition transaction_dates_valid (r : ClientTransaction) : Prop :=
  valid_time (ct_transactionDate r) /\ valid_time (ct_createdAt r)
  /\ valid_time (ct_updatedAt r).

(** ** Every request that writes to the store *)

Inductive Request :=
| Mutate (m : Mutation)
| Pull (a1 a2 : prisma.Availability) (now : Timestamp) (user : string)
       (lastSync : option Timestamp)
| CreateTransaction (newId contractNumber : string) (now : Timestamp)
                    (user : string) (b : CreateBody)
| AddExpense (newId : string) (now : Timestamp) (user id : string)
             (amount : float) (categoryId : string) (desc : option string)
| CreateExpense (newId : string) (now : Timestamp) (amount : float)
                (categoryId : string) (desc : option string)
| DeleteExpense (user id : string)
| CreateProvider (newId : string) (now : Timestamp) (user : string)
                 (b : ProviderBody)
| UpdateProvider (now : Timestamp) (user id : string) (b : ProviderPatch)
| DeleteProvider (user id : string).

Definition serve (dir : Directory) (r : Request) (db : Store) : Store :=
  match r with
  | Mutate m => run m db
  | Pull a1 a2 now user lastSync => (pull a1 a2 now user lastSync db).1
  | CreateTransaction newId cn now user b =>
      (createTransaction newId cn now user b dir db).1
  | AddExpense newId now user id amount categoryId desc =>
      (addExpense newId now user id amount categoryId desc db).1
  | CreateExpense newId now amount categoryId desc =>
      (createExpense newId now amount categoryId desc db).1
  | DeleteExpense user id => (deleteExpense user id db).1
  | CreateProvider newId now user b => (createProvider newId now user b dir db).1
  | UpdateProvider now user id b => (updateProvider now user id b dir db).1
  | DeleteProvider user id => (deleteProvider user id dir db).1
  end.

(** The constraints of the schema on the tables of the store: rows sit
    under their own id, contract numbers are unique, and the references
    from Transaction to Provider, from Advance, Delivery and Expense to
    Transaction, and from Expense to ExpenseCategory point at rows that
    exist. *)
Record consistent (db : Store) : Prop := mkConsistent {
  providers_keyed :
    forall k p, providers db !! k = Some p -> provider_id p = k;
  transactions_keyed :
    forall k t, transactions db !! k = Some t -> transaction_id t = k;
  contractNumber_unique :
    forall k1 k2 t1 t2,
      transactions db !! k1 = Some t1 -> transactions db !! k2 = Some t2 ->
      contractNumber t1 = contractNumber t2 -> k1 = k2;
  transaction_provider :
    forall k t, transactions db !! k = Some t ->
                is_Some (providers db !! providerId t);
  advance_transaction :
    forall a, a ∈ advances db ->
              is_Some (transactions db !! advance_transactionId a);
  delivery_transaction :
    forall d, d ∈ deliveries db ->
              is_Some (transactions db !! delivery_transactionId d);
  expense_transaction :
    forall e t, e ∈ expenses db -> expense_transactionId e = Some t ->
                is_Some (transactions db !! t);
  expense_category :
    forall e, e ∈ expenses db ->
              Exists (fun c => category_id c = expense_categoryId e)
                     (expenseCategories db)
}.

Definition empty_store : Store := mkStore ∅ ∅ ∅ [] [] [] [] [].

(** ** More example inputs *)

Definition failed_log : SyncLog :=
  mkSyncLog "alice" "pull" 0 "failed" (Some "connection lost").

Definition old_success_log : SyncLog :=
  mkSyncLog "alice" "push" 3 "success" None.

(** An old success of alice's, twenty failures of hers, and a later
    success of bob's. *)
Definition shared_log_store : Store :=
  mkStore ∅ ∅ ∅ [] [] [] []
    (old_success_log
     :: replicate 20 failed_log ++ [mkSyncLog "bob" "push" 1 "success" None]).

Definition freight : ExpenseCategory :=
  mkExpenseCategory "cat-1" "Transporte/Flete" true None.

Definition bob_operation : Transaction :=
  mkTransaction "op-5" "20250102-BBBB" None ACTIVE None
    (Some 50%float) (Some 2%float) (Some 100%float)
    100 None "bob" None "prov-2" 100 150.

Definition bob_expense : Expense :=
  mkExpense "exp-2" 8%float None "cat-1" (Some "op-5") 260.

Definition busy_store : Store :=
  mkStore (<["prov-1" := alice_provider]> (<["prov-2" := bob_provider]> ∅))
          (<["op-9" := closed_operation]> (<["op-5" := bob_operation]> ∅))
          ∅ [] [] [general_expense; bob_expense] [freight] [].

Definition cooperative : Organization :=
  mkOrganization "org-1" "Cooperativa" None "carol".

Definition guild : Organization :=
  mkOrganization "org-2" "Gremio" None "bob".

Definition small_directory : Directory :=
  mkDirectory
    (<["dave@example.com" := mkUser "dave" "dave@example.com" OPERATOR]> ∅)
    (<["org-1" := cooperative]> (<["org-2" := guild]> ∅))
    (<[("alice", "org-1") := ADMIN]> (<[("bob", "org-2") := ADMIN]> ∅)).

(** A validator for the examples: an identifier is made of eight, four,
    four, four and twelve hexadecimal digits, an address holds an [@], and
    [trim] drops the blanks at both ends. *)
Definition is_hex (a : Strings.Ascii.ascii) : bool :=
  let n := Strings.Ascii.nat_of_ascii a in
  ((48 <=? n) && (n <=? 57) || (65 <=? n) && (n <=? 70)
   || (97 <=? n) && (n <=? 102))%nat.

Fixpoint hex_digits (n : nat) (s : string) : option string :=
  match n, s with
  | O, _ => Some s
  | S n', String a s' => if is_hex a then hex_digits n' s' else None
  | S _, EmptyString => None
  end.

Definition hyphen (s : string) : option string :=
  match s with
  | String a s' =>
      if (Strings.Ascii.nat_of_ascii a =? 45)%nat then Some s' else None
  | EmptyString => None
  end.

Fixpoint hex_groups (groups : list nat) (s : string) : bool :=
  match groups with
  | [] => false
  | [n] => bool_decide (hex_digits n s = Some EmptyString)
  | n :: rest =>
      match hex_digits n s with
      | Some s' =>
          match hyphen s' with
          | Some s'' => hex_groups rest s''
          | None => false
          end
      | None => false
      end
  end.

Definition uuid_shaped (s : string) : bool :=
  hex_groups [8; 4; 4; 4; 12]%nat s.

Fixpoint holds_at (s : string) : bool :=
  match s with
  | String a s' =>
      (Strings.Ascii.nat_of_ascii a =? 64)%nat || holds_at s'
  | EmptyString => false
  end.

Fixpoint drop_space (s : string) : string :=
  match s with
  | String a s' => if Ascii.is_space a then drop_space s' else s
  | EmptyString => EmptyString
  end.

Definition example_validator : Validator :=
  mkValidator uuid_shaped holds_at
    (fun s => String.rev (drop_space (String.rev (drop_space s)))).

(** A store whose rows sit under generated identifiers: a provider of
    alice's and one of bob's; alice's closed operation, bob's active one,
    and an active one of carol's shared with the league, with one advance;
    an expense on bob's operation. *)
Definition farm_id : string := "11111111-aaaa-4aaa-8aaa-000000000001".
Definition depot_id : string := "22222222-bbbb-4bbb-8bbb-000000000002".
Definition harvest_id : string := "99999999-cccc-4ccc-8ccc-000000000009".
Definition haul_id : string := "55555555-dddd-4ddd-8ddd-000000000005".
Definition pooled_id : string := "77777777-dddd-4ddd-8ddd-000000000007".
Definition carriage_id : string := "cccccccc-eeee-4eee-8eee-000000000001".
Definition toll_id : string := "eeeeeeee-ffff-4fff-8fff-000000000002".
Definition league_id : string := "01010101-0000-4000-8000-000000000002".
Definition unused_id : string := "abcdefab-0000-4000-8000-000000000010".

Definition farm : Provider :=
  mkProvider farm_id "Granja Norte" None None None None (Some "alice") None 100 500.

Definition depot : Provider :=
  mkProvider depot_id "Acopio Sur" None None None None (Some "bob") None 100 200.

Definition harvest : Transaction :=
  mkTransaction harvest_id "20250101-AAAA" None CLOSED None
    (Some 100%float) (Some 10%float) (Some 1000%float)
    100 (Some 300) "alice" None farm_id 100 300.

Definition haul : Transaction :=
  mkTransaction haul_id "20250102-BBBB" None ACTIVE None
    (Some 50%float) (Some 2%float) (Some 100%float)
    100 None "bob" None depot_id 100 150.

Definition pooled : Transaction :=
  mkTransaction pooled_id "20250103-DDDD" None ACTIVE None
    (Some 20%float) (Some 5%float) (Some 100%float)
    100 None "carol" (Some league_id) depot_id 100 100.

Definition carriage : ExpenseCategory :=
  mkExpenseCategory carriage_id "Transporte/Flete" true None.

Definition toll : Expense :=
  mkExpense toll_id 8%float None carriage_id (Some haul_id) 260.

Definition registered_store : Store :=
  mkStore (<[farm_id := farm]> (<[depot_id := depot]> ∅))
          (<[harvest_id := harvest]>
             (<[haul_id := haul]> (<[pooled_id := pooled]> ∅)))
          ∅ [mkAdvance 40%float None pooled_id] [] [toll] [carriage] [].

Definition league : Organization :=
  mkOrganization league_id "Gremio" None "bob".

Definition registered_directory : Directory :=
  mkDirectory ∅ (<[league_id := league]> ∅)
    (<[("bob", league_id) := ADMIN]> (<[("alice", league_id) := OPERATOR]> ∅)).

(** * Balance engine *)

Lemma example_total : totalAmount example_operation = Some 1000%float.
Proof. vm_compute. reflexivity. Qed.

(** C5: an operation created with quantity 100 and unit price 10 has total
    1000; with advances of 200 and 150 and deliveries of 40 and 20 the
    balance computation returns totalAdvances 350, totalDelivered 60,
    moneyBalance 650, productBalance 40, moneyProgress 35 and
    productProgress 60. *)
Theorem calculateBalances_example :
  calculatedTotal None (Some 100%float) (Some 10%float) = Some 1000%float /\
  calculateBalances example_operation example_advances example_deliveries
  = mkBalances 350 60 650 40 35 60.
Proof. split; vm_compute; reflexivity. Qed.

(** [round_half_up n d] is floor (n/d + 1/2): the nearest integer, a tie
    going up. *)
Lemma round_half_up_spec (n d : Z) :
  0 < d ->
  2 * d * JS.round_half_up n d <= 2 * n + d < 2 * d * (JS.round_half_up n d + 1).
Proof.
  intros Hd. unfold JS.round_half_up.
  assert (H2 : 0 < 2 * d) by lia.
  pose proof (Z.mul_div_le (2 * n + d) (2 * d) H2).
  pose proof (Z.mul_succ_div_gt (2 * n + d) (2 * d) H2).
  lia.
Qed.

(** On a double that is not an integer, [Math.round] is that rounding of
    its exact value. *)
Lemma Math_round_finite (x : float) s m e :
  Prim2SF x = S754_finite s m e -> e < 0 ->
  JS.Math_round x
  = JS.of_int s (JS.round_half_up (if s then Z.neg m else Z.pos m) (2 ^ (- e))).
Proof.
  intros Hx He. unfold JS.Math_round. rewrite Hx.
  destruct (Z.leb_spec 0 e); [lia | reflexivity].
Qed.

(** C6 (as the code has it): the progress figures are 0 when the agreed
    total (resp. quantity) is absent or not above zero; otherwise they are
    [Math.round (p * 100) / 100] for the double
    [p = (sum / agreed) * 100], every operation in binary64, where
    [Math.round] rounds the double [p * 100] itself half-up. *)
Theorem calculateBalances_progress (transaction : Transaction)
    (advances : list Advance) (deliveries : list Delivery) :
  let b := calculateBalances transaction advances deliveries in
  (if JS.gt0 (totalAmount transaction)
   then rounds_to_cents
          (totalAdvances b / JS.ToNumber (totalAmount transaction) * 100)%float
          (moneyProgress b)
   else moneyProgress b = 0%float)
  /\ (if JS.gt0 (quantity transaction)
      then rounds_to_cents
             (totalDelivered b / JS.ToNumber (quantity transaction) * 100)%float
             (productProgress b)
      else productProgress b = 0%float).
Proof.
  assert (Hr : forall p, rounds_to_cents p (JS.Math_round (p * 100) / 100)%float).
  { intros p. split; [reflexivity|]. intros s m e Hp He n d.
    exists (JS.round_half_up n d). split.
    - by rewrite (Math_round_finite _ s m e).
    - apply round_half_up_spec. subst d. apply Z.pow_pos_nonneg; lia. }
  cbv zeta. unfold calculateBalances.
  cbn [moneyProgress productProgress totalAdvances totalDelivered].
  split.
  - destruct (JS.gt0 (totalAmount transaction)); [apply Hr | vm_compute; reflexivity].
  - destruct (JS.gt0 (quantity transaction)); [apply Hr | vm_compute; reflexivity].
Qed.

(** C6 (as the specification words it) fails on doubles: 23 paid of 160
    agreed is 14.375 percent, which rounds half-up to 14.38; the code
    returns 14.37, because [23 / 160 * 100] is the double just below
    14.375. *)
Lemma progress_rounding_counterexample :
  let t := mkTransaction "op-1" "20250127-A3F9" None ACTIVE None
             (Some 100%float) None (Some 160%float)
             0 None "user-1" None "prov-1" 0 0 in
  exact 23 = Some (23 # 1)%Q /\ exact 160 = Some (160 # 1)%Q
  /\ spec_progressPct 23 160 = Qred (1438 # 100)
  /\ moneyProgress (calculateBalances t [mkAdvance 23 None "op-1"] [])
     = (1437 / 100)%float
  /\ PrimFloat.ltb (1437 / 100) (1438 / 100) = true.
Proof. cbv zeta. repeat split; vm_compute; reflexivity. Qed.

(** * Synchronisation: push *)

Lemma pushProvider_step user db r :
  exists db' f, provider_step user db r db' f
                /\ forall res, pushProvider user (db, res) r = (db', f res).
Proof.
  unfold pushProvider, syncProvider, prisma.provider_findFirst,
    prisma.provider_update, prisma.provider_create; cbn.
  destruct (providers db !! cp_id r) as [e|] eqn:He.
  - destruct (decide (provider_userId e = Some user)) as [Hu|Hu].
    + destruct (Z.ltb_spec (provider_updatedAt e) (cp_updatedAt r)).
      * cbn; rewrite ?He; cbn. eauto using provider_overwritten.
      * exists db, id. split; [eapply provider_skipped; eauto | done].
    + cbn; rewrite ?He; cbn. eauto using provider_rejected.
  - cbn; rewrite ?He; cbn. eauto using provider_created.
Qed.

Lemma transaction_create_ok row db db' :
  prisma.transaction_create row db = inr db' ->
  transactions db !! transaction_id row = None
  /\ db' = set_transactions (<[transaction_id row := row]> (transactions db)) db.
Proof.
  unfold prisma.transaction_create. intros H.
  repeat case_decide; try discriminate.
  destruct (prisma.productService_exists _ _); [|discriminate].
  split; [|congruence].
  destruct (transactions db !! transaction_id row) eqn:E; [|done].
  exfalso. eauto.
Qed.

Lemma pushTransaction_step user db r :
  exists db' f, transaction_step user db r db' f
                /\ forall res, pushTransaction user (db, res) r = (db', f res).
Proof.
  unfold pushTransaction, syncTransaction; cbn.
  destruct (prisma.transaction_findFirst (ct_id r) user db) as [e|] eqn:Hf.
  - unfold prisma.transaction_findFirst in Hf.
    destruct (transactions db !! ct_id r) as [e'|] eqn:He; [|discriminate].
    case_decide; [|discriminate]. injection Hf as ->.
    destruct (Z.ltb_spec (updatedAt e) (ct_updatedAt r)).
    + unfold prisma.transaction_update. cbn; rewrite ?He; cbn.
      eauto using transaction_overwritten.
    + exists db, id. split; [eapply transaction_skipped; eauto | done].
  - destruct (prisma.transaction_create (transaction_create_data user r) db)
      as [err|db'] eqn:Hc; cbn.
    + eauto using transaction_rejected.
    + apply transaction_create_ok in Hc as Hc'. destruct Hc' as [Hn ->].
      cbn in Hn. eauto using transaction_created.
Qed.

Section PushLoops.

Context (user : string).

Lemma store_eta db : set_providers (providers db) db = db.
Proof. by destruct db. Qed.

Lemma store_eta' db : set_transactions (transactions db) db = db.
Proof. by destruct db. Qed.

(** The provider loop writes the Provider table only; the transaction loop
    the Transaction table only. *)
Lemma provider_step_frame db r db' f :
  provider_step user db r db' f -> db' = set_providers (providers db') db.
Proof. destruct 1; cbn; by rewrite ?store_eta. Qed.

Lemma transaction_step_frame db r db' f :
  transaction_step user db r db' f -> db' = set_transactions (transactions db') db.
Proof. destruct 1; cbn; by rewrite ?store_eta'. Qed.

Lemma pushProvider_frame st r :
  (pushProvider user st r).1 = set_providers (providers (pushProvider user st r).1) st.1.
Proof.
  destruct st as [db res].
  destruct (pushProvider_step user db r) as (db' & f & Hs & Heq).
  rewrite Heq.
  cbn. eauto using provider_step_frame.
Qed.

Lemma pushTransaction_frame st r :
  (pushTransaction user st r).1
  = set_transactions (transactions (pushTransaction user st r).1) st.1.
Proof.
  destruct st as [db res].
  destruct (pushTransaction_step user db r) as (db' & f & Hs & Heq).
  rewrite Heq.
  cbn. eauto using transaction_step_frame.
Qed.

Lemma providerLoop_frame l st :
  (fold_left (pushProvider user) l st).1
  = set_providers (providers (fold_left (pushProvider user) l st).1) st.1.
Proof.
  revert st. induction l as [|r l IH]; intros st; cbn.
  - by rewrite store_eta.
  - rewrite IH at 1. rewrite (pushProvider_frame st r). done.
Qed.

Lemma transactionLoop_frame l st :
  (fold_left (pushTransaction user) l st).1
  = set_transactions (transactions (fold_left (pushTransaction user) l st).1) st.1.
Proof.
  revert st. induction l as [|r l IH]; intros st; cbn.
  - by rewrite store_eta'.
  - rewrite IH at 1. rewrite (pushTransaction_frame st r). done.
Qed.

(** A settled record stays settled: the loops never delete a row, never
    change its owner and never move [updatedAt] backwards. *)
Lemma provider_step_settled db r db' f id t :
  provider_step user db r db' f ->
  provider_settled user id t db -> provider_settled user id t db'.
Proof.
  intros Hs (e & He & Hu & Ht). unfold provider_settled.
  destruct Hs as [e0 H0 Hu0 Hlt | | H0 | ]; cbn; eauto.
  - destruct (decide (cp_id r = id)) as [<-|Hne].
    + rewrite lookup_insert_eq. eexists; split; [done|]. cbn.
      assert (e0 = e) as -> by congruence. split; [done | lia].
    + rewrite lookup_insert_ne by done. eauto.
  - destruct (decide (cp_id r = id)) as [<-|Hne]; [congruence|].
    rewrite lookup_insert_ne by done. eauto.
Qed.

Lemma transaction_step_settled db r db' f id t :
  transaction_step user db r db' f ->
  transaction_settled user id t db -> transaction_settled user id t db'.
Proof.
  intros Hs (e & He & Hu & Ht). unfold transaction_settled.
  destruct Hs as [e0 H0 Hu0 Hlt | | H0 _ | ]; cbn; eauto.
  - destruct (decide (ct_id r = id)) as [<-|Hne].
    + rewrite lookup_insert_eq. eexists; split; [done|]. cbn.
      assert (e0 = e) as -> by congruence. split; [done | lia].
    + rewrite lookup_insert_ne by done. eauto.
  - destruct (decide (ct_id r = id)) as [<-|Hne]; [congruence|].
    rewrite lookup_insert_ne by done. eauto.
Qed.

Lemma providerLoop_settled l st id t :
  provider_settled user id t st.1 ->
  provider_settled user id t (fold_left (pushProvider user) l st).1.
Proof.
  revert st. induction l as [|r l IH]; intros [db res] H; cbn; [done|].
  apply IH.
  destruct (pushProvider_step user db r) as (db' & f & Hs & Heq).
  rewrite Heq.
  cbn in *. eauto using provider_step_settled.
Qed.

Lemma transactionLoop_settled l st id t :
  transaction_settled user id t st.1 ->
  transaction_settled user id t (fold_left (pushTransaction user) l st).1.
Proof.
  revert st. induction l as [|r l IH]; intros [db res] H; cbn; [done|].
  apply IH.
  destruct (pushTransaction_step user db r) as (db' & f & Hs & Heq).
  rewrite Heq.
  cbn in *. eauto using transaction_step_settled.
Qed.

(** The iteration for a settled record changes nothing. *)
Lemma pushProvider_settled st r :
  provider_settled user (cp_id r) (cp_updatedAt r) st.1 ->
  pushProvider user st r = st.
Proof.
  destruct st as [db res]. intros (e & He & Hu & Ht).
  destruct (pushProvider_step user db r) as (db' & f & Hs & Heq).
  rewrite Heq.
  cbn in *. destruct Hs; try done; try congruence.
  assert (e0 = e) as -> by congruence. lia.
Qed.

Lemma transaction_findFirst_Some id db e :
  transactions db !! id = Some e -> userId e = user ->
  prisma.transaction_findFirst id user db = Some e.
Proof.
  intros H Hu. unfold prisma.transaction_findFirst. rewrite H.
  by rewrite decide_True.
Qed.

Lemma pushTransaction_settled st r :
  transaction_settled user (ct_id r) (ct_updatedAt r) st.1 ->
  pushTransaction user st r = st.
Proof.
  destruct st as [db res]. intros (e & He & Hu & Ht).
  destruct (pushTransaction_step user db r) as (db' & f & Hs & Heq).
  rewrite Heq.
  cbn in *. destruct Hs; try done; try congruence.
  - assert (e0 = e) as -> by congruence. lia.
  - erewrite transaction_findFirst_Some in H by done. done.
Qed.

(** An iteration writes at most the row under its record's id. *)
Lemma provider_step_other db r db' f i :
  provider_step user db r db' f -> i <> cp_id r ->
  providers db' !! i = providers db !! i.
Proof. destruct 1; cbn; intros; by rewrite ?lookup_insert_ne. Qed.

Lemma transaction_step_other db r db' f i :
  transaction_step user db r db' f -> i <> ct_id r ->
  transactions db' !! i = transactions db !! i.
Proof. destruct 1; cbn; intros; by rewrite ?lookup_insert_ne. Qed.

(** A row survives a loop untouched when every copy of it in the batch is
    stale. *)
Lemma providerLoop_keeps_row l st i e :
  providers st.1 !! i = Some e -> provider_userId e = Some user ->
  (forall r, r ∈ l -> cp_id r = i -> cp_updatedAt r <= provider_updatedAt e) ->
  providers (fold_left (pushProvider user) l st).1 !! i = Some e.
Proof.
  revert st. induction l as [|r l IH]; intros [db res] He Hu Hall; cbn; [done|].
  cbn in He. apply IH; [|done|intros; apply Hall; [by right|done]].
  destruct (decide (cp_id r = i)) as [Hi|Hi].
  - rewrite pushProvider_settled; [done|]. cbn. exists e. rewrite Hi.
    repeat split; [done..|]. apply Hall; [by left|done].
  - destruct (pushProvider_step user db r) as (db' & f & Hs & Heq).
    rewrite Heq. cbn. by rewrite (provider_step_other _ _ _ _ _ Hs).
Qed.

Lemma transactionLoop_keeps_row l st i e :
  transactions st.1 !! i = Some e -> userId e = user ->
  (forall r, r ∈ l -> ct_id r = i -> ct_updatedAt r <= updatedAt e) ->
  transactions (fold_left (pushTransaction user) l st).1 !! i = Some e.
Proof.
  revert st. induction l as [|r l IH]; intros [db res] He Hu Hall; cbn; [done|].
  cbn in He. apply IH; [|done|intros; apply Hall; [by right|done]].
  destruct (decide (ct_id r = i)) as [Hi|Hi].
  - rewrite pushTransaction_settled; [done|]. cbn. exists e. rewrite Hi.
    repeat split; [done..|]. apply Hall; [by left|done].
  - destruct (pushTransaction_step user db r) as (db' & f & Hs & Heq).
    rewrite Heq. cbn. by rewrite (transaction_step_other _ _ _ _ _ Hs).
Qed.

End PushLoops.

(** Whatever happens to the audit row, the entity tables after the call are
    those the loops left. *)
Lemma push_store a1 a2 user body db :
  exists l, (push a1 a2 user body db).1
            = set_syncLogs l (pushLoops user body db).1.
Proof.
  unfold push. destruct (pushLoops user body db) as [db' results].
  destruct a1 as [|m1]; cbn; [eauto|].
  destruct a2 as [|m2]; cbn; [eauto|].
  exists (syncLogs db'). by destruct db'.
Qed.

Lemma pushLoops_providers user body db :
  providers (pushLoops user body db).1
  = providers (fold_left (pushProvider user) (body_providers body) (db, no_result)).1.
Proof.
  unfold pushLoops.
  destruct (fold_left (pushProvider user) _ _) as [db1 rp] eqn:E1.
  destruct (fold_left (pushTransaction user) _ _) as [db2 rt] eqn:E2.
  cbn. pose proof (transactionLoop_frame user (body_transactions body) (db1, no_result)) as H.
  rewrite E2 in H. cbn in H. by rewrite H.
Qed.

Lemma pushLoops_transactions user body db :
  transactions (pushLoops user body db).1
  = transactions
      (fold_left (pushTransaction user) (body_transactions body)
         ((fold_left (pushProvider user) (body_providers body) (db, no_result)).1,
          no_result)).1.
Proof.
  unfold pushLoops.
  destruct (fold_left (pushProvider user) _ _) as [db1 rp] eqn:E1. cbn.
  by destruct (fold_left (pushTransaction user) _ _) as [db2 rt] eqn:E2.
Qed.

Lemma pushLoops_results user body db :
  (pushLoops user body db).2
  = mkResults
      (fold_left (pushTransaction user) (body_transactions body)
         ((fold_left (pushProvider user) (body_providers body) (db, no_result)).1,
          no_result)).2
      (fold_left (pushProvider user) (body_providers body) (db, no_result)).2
      no_result.
Proof.
  unfold pushLoops.
  destruct (fold_left (pushProvider user) _ _) as [db1 rp] eqn:E1. cbn.
  by destruct (fold_left (pushTransaction user) _ _) as [db2 rt] eqn:E2.
Qed.

Lemma providerLoop_transactions user l st :
  transactions (fold_left (pushProvider user) l st).1 = transactions st.1.
Proof. by rewrite providerLoop_frame. Qed.

Lemma transaction_settled_providers user id t m db :
  transaction_settled user id t (set_providers m db)
  <-> transaction_settled user id t db.
Proof. done. Qed.

(** C1: a submitted record whose id matches a server record owned by the
    caller, and whose updatedAt is not strictly greater than the server
    record's, is skipped: when the loop reaches it, its iteration leaves
    the whole store (so every field of that record) and the collection's
    counters as they are; the push does what it would do without that
    record in the batch; and when no other copy of the record in the batch
    is newer than the server's, the server record after the push is the
    one before it. *)
Theorem push_skips_stale_record (user : string) (body : PushBody) (db : Store) :
  (forall pre r post e,
      body_providers body = pre ++ r :: post ->
      providers db !! cp_id r = Some e ->
      provider_userId e = Some user ->
      cp_updatedAt r <= provider_updatedAt e ->
      let st := fold_left (pushProvider user) pre (db, no_result) in
      pushProvider user st r = st
      /\ pushLoops user body db
         = pushLoops user
             (mkPushBody (body_transactions body) (pre ++ post) (body_expenses body))
             db
      /\ ((forall r', r' ∈ body_providers body -> cp_id r' = cp_id r ->
                      cp_updatedAt r' <= provider_updatedAt e) ->
          forall a1 a2,
            providers (push a1 a2 user body db).1 !! cp_id r = Some e))
  /\ (forall pre r post e,
      body_transactions body = pre ++ r :: post ->
      transactions db !! ct_id r = Some e ->
      userId e = user ->
      ct_updatedAt r <= updatedAt e ->
      let db1 := (fold_left (pushProvider user) (body_providers body)
                            (db, no_result)).1 in
      let st := fold_left (pushTransaction user) pre (db1, no_result) in
      pushTransaction user st r = st
      /\ pushLoops user body db
         = pushLoops user
             (mkPushBody (pre ++ post) (body_providers body) (body_expenses body))
             db
      /\ ((forall r', r' ∈ body_transactions body -> ct_id r' = ct_id r ->
                      ct_updatedAt r' <= updatedAt e) ->
          forall a1 a2,
            transactions (push a1 a2 user body db).1 !! ct_id r = Some e)).
Proof.
  split; intros pre r post e Hbody He Hu Ht; cbv zeta.
  - assert (Hskip : pushProvider user
                      (fold_left (pushProvider user) pre (db, no_result)) r
                    = fold_left (pushProvider user) pre (db, no_result)).
    { apply pushProvider_settled, providerLoop_settled. by exists e. }
    split; [done|]. split.
    + unfold pushLoops. cbn [body_providers body_transactions].
      rewrite Hbody, !fold_left_app. cbn [fold_left]. by rewrite Hskip.
    + intros Hall a1 a2. destruct (push_store a1 a2 user body db) as [l ->].
      cbn [providers set_syncLogs]. rewrite pushLoops_providers.
      by apply providerLoop_keeps_row.
  - set (db1 := (fold_left (pushProvider user) (body_providers body)
                           (db, no_result)).1).
    assert (Hskip : pushTransaction user
                      (fold_left (pushTransaction user) pre (db1, no_result)) r
                    = fold_left (pushTransaction user) pre (db1, no_result)).
    { apply pushTransaction_settled, transactionLoop_settled. cbn.
      subst db1. rewrite providerLoop_frame. apply transaction_settled_providers.
      by exists e. }
    split; [done|]. split.
    + unfold pushLoops. cbn [body_providers body_transactions].
      destruct (fold_left (pushProvider user) (body_providers body) (db, no_result))
        as [d rp] eqn:Hp. cbn in db1. subst db1.
      rewrite Hbody, !fold_left_app. cbn [fold_left]. by rewrite Hskip.
    + intros Hall a1 a2. destruct (push_store a1 a2 user body db) as [l ->].
      cbn [transactions set_syncLogs]. rewrite pushLoops_transactions.
      apply transactionLoop_keeps_row; [|done..].
      cbn [fst]. by rewrite providerLoop_transactions.
Qed.

Lemma push_skips_stale_record_witness :
  pushProvider "alice" (small_store, no_result) stale_provider
  = (small_store, no_result)
  /\ pushLoops "alice" (mkPushBody [] [stale_provider] []) small_store
     = pushLoops "alice" (mkPushBody [] [] []) small_store
  /\ providers (push prisma.Up prisma.Up "alice"
                  (mkPushBody [] [stale_provider] []) small_store).1 !! "prov-1"
     = Some alice_provider.
Proof.
  assert (Hrow : providers small_store !! "prov-1" = Some alice_provider)
    by (vm_compute; reflexivity).
  assert (Hle : cp_updatedAt stale_provider <= provider_updatedAt alice_provider)
    by (vm_compute; discriminate).
  destruct (proj1 (push_skips_stale_record "alice"
                     (mkPushBody [] [stale_provider] []) small_store)
                  [] stale_provider [] alice_provider eq_refl Hrow eq_refl Hle)
    as (H1 & H2 & H3).
  split; [exact H1|]. split; [exact H2|].
  apply H3. intros r' Hin _.
  apply list_elem_of_singleton in Hin as ->. exact Hle.
Defined.

(** ** Partial failure *)

Lemma merge_result_assoc a b c :
  merge_result (merge_result a b) c = merge_result a (merge_result b c).
Proof. unfold merge_result; cbn. f_equal; [lia | lia | by rewrite app_assoc]. Qed.

Lemma merge_result_empty a : merge_result a no_result = a.
Proof.
  destruct a; unfold merge_result; cbn.
  by rewrite !Nat.add_0_r, app_nil_r.
Qed.

Lemma provider_step_merge user db r db' f a b :
  provider_step user db r db' f -> f (merge_result a b) = merge_result a (f b).
Proof.
  destruct 1; unfold merge_result, incr_updated, incr_created, push_error; cbn;
    f_equal; try lia; by rewrite ?app_assoc.
Qed.

Lemma transaction_step_merge user db r db' f a b :
  transaction_step user db r db' f -> f (merge_result a b) = merge_result a (f b).
Proof.
  destruct 1; unfold merge_result, incr_updated, incr_created, push_error; cbn;
    f_equal; try lia; by rewrite ?app_assoc.
Qed.

(** What a loop does to the store does not depend on the counters it
    starts from, and its counters add to them. *)
Lemma providerLoop_results user l db res :
  fold_left (pushProvider user) l (db, res)
  = ((fold_left (pushProvider user) l (db, no_result)).1,
     merge_result res (fold_left (pushProvider user) l (db, no_result)).2).
Proof.
  revert db res. induction l as [|r l IH]; intros db res; cbn.
  - by rewrite merge_result_empty.
  - destruct (pushProvider_step user db r) as (db' & f & Hs & Heq).
    rewrite !Heq. rewrite (IH db' (f res)), (IH db' (f no_result)). cbn.
    f_equal. rewrite <- merge_result_assoc. f_equal.
    rewrite <- (provider_step_merge _ _ _ _ _ _ _ Hs).
    by rewrite merge_result_empty.
Qed.

Lemma transactionLoop_results user l db res :
  fold_left (pushTransaction user) l (db, res)
  = ((fold_left (pushTransaction user) l (db, no_result)).1,
     merge_result res (fold_left (pushTransaction user) l (db, no_result)).2).
Proof.
  revert db res. induction l as [|r l IH]; intros db res; cbn.
  - by rewrite merge_result_empty.
  - destruct (pushTransaction_step user db r) as (db' & f & Hs & Heq).
    rewrite !Heq. rewrite (IH db' (f res)), (IH db' (f no_result)). cbn.
    f_equal. rewrite <- merge_result_assoc. f_equal.
    rewrite <- (transaction_step_merge _ _ _ _ _ _ _ Hs).
    by rewrite merge_result_empty.
Qed.

(** When the store is reachable for the audit row, the call answers with
    the results of the loops. *)
Lemma push_completed a2 user body db :
  push prisma.Up a2 user body db
  = (set_syncLogs
       (syncLogs (pushLoops user body db).1
        ++ [mkSyncLog user "push" (submitted body) "success" None])
       (pushLoops user body db).1,
     Some (SyncCompleted (pushLoops user body db).2)).
Proof. unfold push. by destruct (pushLoops user body db). Qed.

Lemma pushProvider_failure user st r err :
  syncProvider user r st.1 st.2 = inl err ->
  pushProvider user st r
  = (st.1, push_error (mkSyncError (cp_id r) (message err)) st.2).
Proof. intros H. unfold pushProvider. by rewrite H. Qed.

Lemma pushTransaction_failure user st r err :
  syncTransaction user r st.1 st.2 = inl err ->
  pushTransaction user st r
  = (st.1, push_error (mkSyncError (ct_id r) (message err)) st.2).
Proof. intros H. unfold pushTransaction. by rewrite H. Qed.

Lemma providerLoop_failure user pre r post db err :
  let st := fold_left (pushProvider user) pre (db, no_result) in
  let rest := fold_left (pushProvider user) post (st.1, no_result) in
  syncProvider user r st.1 st.2 = inl err ->
  fold_left (pushProvider user) (pre ++ r :: post) (db, no_result)
  = (rest.1, merge_result (push_error (mkSyncError (cp_id r) (message err)) st.2) rest.2)
  /\ fold_left (pushProvider user) (pre ++ post) (db, no_result)
     = (rest.1, merge_result st.2 rest.2).
Proof.
  intros st rest H. rewrite !fold_left_app. cbn [fold_left]. fold st.
  rewrite (pushProvider_failure _ _ _ _ H).
  split.
  - by rewrite providerLoop_results.
  - rewrite (surjective_pairing st) at 1. by rewrite providerLoop_results.
Qed.

Lemma transactionLoop_failure user pre r post db err :
  let st := fold_left (pushTransaction user) pre (db, no_result) in
  let rest := fold_left (pushTransaction user) post (st.1, no_result) in
  syncTransaction user r st.1 st.2 = inl err ->
  fold_left (pushTransaction user) (pre ++ r :: post) (db, no_result)
  = (rest.1, merge_result (push_error (mkSyncError (ct_id r) (message err)) st.2) rest.2)
  /\ fold_left (pushTransaction user) (pre ++ post) (db, no_result)
     = (rest.1, merge_result st.2 rest.2).
Proof.
  intros st rest H. rewrite !fold_left_app. cbn [fold_left]. fold st.
  rewrite (pushTransaction_failure _ _ _ _ H).
  split.
  - by rewrite transactionLoop_results.
  - rewrite (surjective_pairing st) at 1. by rewrite transactionLoop_results.
Qed.

(** A failing record that is an object is isolated: when the [try] block
    of the record throws, the iteration appends
    the record's id and the message to the collection's error list and
    touches nothing else; the loop goes on, so the store after the push and
    the created and updated counts are those of the batch without that
    record, the error list is the one of the batch without it with this
    entry in its place, and the call answers with the per-collection
    results. *)
Theorem push_isolates_failing_record (a2 : prisma.Availability)
    (user : string) (body : PushBody) (db : Store) :
  (forall pre r post err,
      body_providers body = pre ++ r :: post ->
      let st := fold_left (pushProvider user) pre (db, no_result) in
      let rest := fold_left (pushProvider user) post (st.1, no_result) in
      let entry := mkSyncError (cp_id r) (message err) in
      let others :=
        pushLoops user
          (mkPushBody (body_transactions body) (pre ++ post) (body_expenses body)) db in
      let out := pushLoops user body db in
      syncProvider user r st.1 st.2 = inl err ->
      pushProvider user st r = (st.1, push_error entry st.2)
      /\ out.1 = others.1
      /\ results_providers out.2 = merge_result (push_error entry st.2) rest.2
      /\ results_providers others.2 = merge_result st.2 rest.2
      /\ results_transactions out.2 = results_transactions others.2
      /\ (push prisma.Up a2 user body db).2 = Some (SyncCompleted out.2))
  /\ (forall pre r post err,
      body_transactions body = pre ++ r :: post ->
      let db1 := (fold_left (pushProvider user) (body_providers body)
                            (db, no_result)).1 in
      let st := fold_left (pushTransaction user) pre (db1, no_result) in
      let rest := fold_left (pushTransaction user) post (st.1, no_result) in
      let entry := mkSyncError (ct_id r) (message err) in
      let others :=
        pushLoops user
          (mkPushBody (pre ++ post) (body_providers body) (body_expenses body)) db in
      let out := pushLoops user body db in
      syncTransaction user r st.1 st.2 = inl err ->
      pushTransaction user st r = (st.1, push_error entry st.2)
      /\ out.1 = others.1
      /\ results_transactions out.2 = merge_result (push_error entry st.2) rest.2
      /\ results_transactions others.2 = merge_result st.2 rest.2
      /\ results_providers out.2 = results_providers others.2
      /\ (push prisma.Up a2 user body db).2 = Some (SyncCompleted out.2)).
Proof.
  split; intros pre r post err Hbody; cbv zeta; intros H.
  - split; [by apply pushProvider_failure|].
    destruct (providerLoop_failure user pre r post db err H) as [Hw Ho].
    rewrite push_completed. unfold pushLoops.
    cbn [body_providers body_transactions body_expenses].
    rewrite Hbody, Hw, Ho.
    destruct (fold_left (pushTransaction user) _ _) as [d rt]. done.
  - split; [by apply pushTransaction_failure|].
    rewrite push_completed. unfold pushLoops.
    cbn [body_providers body_transactions body_expenses].
    destruct (fold_left (pushProvider user) (body_providers body) (db, no_result))
      as [db1 rp].
    destruct (transactionLoop_failure user pre r post db1 err H) as [Hw Ho].
    cbn [fst] in *. rewrite Hbody, Hw, Ho. done.
Qed.

Lemma push_isolates_failing_record_witness :
  pushProvider "alice" (small_store, no_result) colliding_provider
  = (small_store,
     push_error (mkSyncError "prov-2" (message (UniqueConstraintFailed "id")))
                no_result)
  /\ (pushLoops "alice" (mkPushBody [] [colliding_provider; fresh_provider] [])
                small_store).1
     = (pushLoops "alice" (mkPushBody [] [fresh_provider] []) small_store).1.
Proof.
  pose proof (proj1 (push_isolates_failing_record prisma.Up "alice"
                       (mkPushBody [] [colliding_provider; fresh_provider] [])
                       small_store)
                    [] colliding_provider [fresh_provider]
                    (UniqueConstraintFailed "id") eq_refl) as H.
  cbv zeta in H.
  assert (Hthrows : syncProvider "alice" colliding_provider small_store no_result
                    = inl (UniqueConstraintFailed "id")).
  { vm_compute. reflexivity. }
  destruct (H Hthrows) as (H1 & H2 & _).
  split; [exact H1 | exact H2].
Defined.

(** *** A [null] record *)

Lemma pushNullableLoop_app {R : Type}
    (iteration : Store * SyncResult -> R -> Store * SyncResult)
    (objs : list R) (rest : list (option R)) (st : Store * SyncResult) :
  pushNullableLoop iteration ((Some <$> objs) ++ rest) st
  = pushNullableLoop iteration rest (fold_left iteration objs st).
Proof. revert st. induction objs as [|r objs IH]; intros st; cbn; [done|apply IH]. Qed.

Lemma pushNullableLoop_objects {R : Type}
    (iteration : Store * SyncResult -> R -> Store * SyncResult)
    (objs : list R) (st : Store * SyncResult) :
  pushNullableLoop iteration (Some <$> objs) st
  = (fold_left iteration objs st, None).
Proof.
  rewrite <- (app_nil_r (Some <$> objs)). by rewrite pushNullableLoop_app.
Qed.

(** On a batch of objects the handler is [push]. *)
Lemma pushNullable_objects a1 a2 user body db :
  pushNullable a1 a2 user (objects body) db = push a1 a2 user body db.
Proof.
  unfold pushNullable, push, pushLoops, objects, submitted_nullable, submitted,
    push_failed.
  cbn [nullable_providers nullable_transactions nullable_expenses].
  rewrite !pushNullableLoop_objects, !length_fmap.
  destruct (fold_left (pushProvider user) _ _) as [db1 rp].
  rewrite pushNullableLoop_objects.
  destruct (fold_left (pushTransaction user) _ _) as [db2 rt].
  done.
Qed.

(** C8: a [null] record is not isolated.  Its iteration throws out of the
    loop: the records before it stay applied, the records after it and
    the collections after its own are not processed, and the handler ends
    in its outer [catch], which writes the failure row, with a count of 0
    and the message of the TypeError, and answers 500 in place of the
    per-collection results. *)
Theorem push_aborts_on_null_record (a1 a2 : prisma.Availability)
    (user : string) (body : NullablePushBody) (db : Store) :
  (forall pre post,
      nullable_providers body = (Some <$> pre) ++ None :: post ->
      let reached := (fold_left (pushProvider user) pre (db, no_result)).1 in
      pushNullable a1 a2 user body db
      = match a2 with
        | prisma.Up =>
            (set_syncLogs
               (syncLogs reached
                ++ [mkSyncLog user "push" 0 "failed" (Some null_id_message)])
               reached,
             Some SyncFailed)
        | prisma.Down _ => (reached, None)
        end)
  /\ (forall providers pre post,
        nullable_providers body = Some <$> providers ->
        nullable_transactions body = (Some <$> pre) ++ None :: post ->
        let db1 := (fold_left (pushProvider user) providers (db, no_result)).1 in
        let reached := (fold_left (pushTransaction user) pre (db1, no_result)).1 in
        pushNullable a1 a2 user body db
        = match a2 with
          | prisma.Up =>
              (set_syncLogs
                 (syncLogs reached
                  ++ [mkSyncLog user "push" 0 "failed" (Some null_id_message)])
                 reached,
               Some SyncFailed)
          | prisma.Down _ => (reached, None)
          end).
Proof.
  split.
  - intros pre post Hp. cbv zeta. unfold pushNullable.
    rewrite Hp, pushNullableLoop_app. cbn [pushNullableLoop].
    destruct (fold_left (pushProvider user) pre (db, no_result)) as [db1 rp].
    unfold push_failed. by destruct a2.
  - intros ps pre post Hp Ht. cbv zeta. unfold pushNullable.
    rewrite Hp, pushNullableLoop_objects.
    destruct (fold_left (pushProvider user) ps (db, no_result)) as [db1 rp].
    rewrite Ht, pushNullableLoop_app. cbn [pushNullableLoop fst].
    destruct (fold_left (pushTransaction user) pre (db1, no_result)) as [db2 rt].
    unfold push_failed. by destruct a2.
Qed.

(** The batch [null; fresh_provider]: the push fails and the provider is
    not created, while the batch [fresh_provider] creates it. *)
Lemma push_null_record_example :
  let body := mkNullablePushBody [] [None; Some fresh_provider] [] in
  let out := pushNullable prisma.Up prisma.Up "alice" body small_store in
  out.2 = Some SyncFailed
  /\ providers out.1 = providers small_store
  /\ syncLogs out.1
     = [mkSyncLog "alice" "push" 0 "failed" (Some null_id_message)]
  /\ (push prisma.Up prisma.Up "alice" (mkPushBody [] [fresh_provider] [])
        small_store).2
     = Some (SyncCompleted
               (mkResults no_result (mkSyncResult 1 0 []) no_result))
  /\ is_Some (providers
                (push prisma.Up prisma.Up "alice"
                   (mkPushBody [] [fresh_provider] []) small_store).1
              !! "prov-3").
Proof.
  cbv zeta. repeat split; try (vm_compute; reflexivity).
  vm_compute. eauto.
Qed.

(** ** Ownership *)

Section Ownership.

Context (user : string).

Lemma providers_guarded_refl m : providers_guarded user m m.
Proof. split; eauto. Qed.

Lemma providers_guarded_trans m1 m2 m3 :
  providers_guarded user m1 m2 -> providers_guarded user m2 m3 ->
  providers_guarded user m1 m3.
Proof.
  intros [A1 B1] [A2 B2]. split.
  - intros id p' H. destruct (A2 _ _ H) as [H'|]; eauto.
  - eauto.
Qed.

Lemma transactions_guarded_refl m : transactions_guarded user m m.
Proof. split; eauto. Qed.

Lemma transactions_guarded_trans m1 m2 m3 :
  transactions_guarded user m1 m2 -> transactions_guarded user m2 m3 ->
  transactions_guarded user m1 m3.
Proof.
  intros [A1 B1] [A2 B2]. split.
  - intros id p' H. destruct (A2 _ _ H) as [H'|]; eauto.
  - eauto.
Qed.

Lemma provider_step_guarded db r db' f :
  provider_step user db r db' f ->
  providers_guarded user (providers db) (providers db').
Proof.
  destruct 1 as [e He Hu _ | | Hn | ]; cbn; try apply providers_guarded_refl.
  - split; intros id p H.
    + destruct (decide (cp_id r = id)) as [<-|Hne].
      * rewrite lookup_insert_eq in H. injection H as <-. by right.
      * rewrite lookup_insert_ne in H by done. by left.
    + intros Hp. destruct (decide (cp_id r = id)) as [<-|Hne]; [congruence|].
      by rewrite lookup_insert_ne.
  - split; intros id p H.
    + destruct (decide (cp_id r = id)) as [<-|Hne].
      * rewrite lookup_insert_eq in H. injection H as <-. by right.
      * rewrite lookup_insert_ne in H by done. by left.
    + intros Hp. destruct (decide (cp_id r = id)) as [<-|Hne]; [congruence|].
      by rewrite lookup_insert_ne.
Qed.

Lemma transaction_step_guarded db r db' f :
  transaction_step user db r db' f ->
  transactions_guarded user (transactions db) (transactions db').
Proof.
  destruct 1 as [e He Hu _ | | Hn _ | ]; cbn; try apply transactions_guarded_refl.
  - split; intros id p H.
    + destruct (decide (ct_id r = id)) as [<-|Hne].
      * rewrite lookup_insert_eq in H. injection H as <-. by right.
      * rewrite lookup_insert_ne in H by done. by left.
    + intros Hp. destruct (decide (ct_id r = id)) as [<-|Hne]; [congruence|].
      by rewrite lookup_insert_ne.
  - split; intros id p H.
    + destruct (decide (ct_id r = id)) as [<-|Hne].
      * rewrite lookup_insert_eq in H. injection H as <-. by right.
      * rewrite lookup_insert_ne in H by done. by left.
    + intros Hp. destruct (decide (ct_id r = id)) as [<-|Hne]; [congruence|].
      by rewrite lookup_insert_ne.
Qed.

Lemma providerLoop_guarded l st :
  providers_guarded user (providers st.1)
    (providers (fold_left (pushProvider user) l st).1).
Proof.
  revert st. induction l as [|r l IH]; intros [db res]; cbn.
  - apply providers_guarded_refl.
  - destruct (pushProvider_step user db r) as (db' & f & Hs & Heq).
    eapply providers_guarded_trans; [|apply IH].
    rewrite Heq. cbn. eauto using provider_step_guarded.
Qed.

Lemma transactionLoop_guarded l st :
  transactions_guarded user (transactions st.1)
    (transactions (fold_left (pushTransaction user) l st).1).
Proof.
  revert st. induction l as [|r l IH]; intros [db res]; cbn.
  - apply transactions_guarded_refl.
  - destruct (pushTransaction_step user db r) as (db' & f & Hs & Heq).
    eapply transactions_guarded_trans; [|apply IH].
    rewrite Heq. cbn. eauto using transaction_step_guarded.
Qed.

(** A record whose id is held by another user's row is refused with the
    primary-key violation, whatever came before it in the batch. *)
Lemma providerLoop_collision l db r p :
  r ∈ l -> providers db !! cp_id r = Some p -> provider_userId p <> Some user ->
  mkSyncError (cp_id r) (message (UniqueConstraintFailed "id"))
  ∈ errors (fold_left (pushProvider user) l (db, no_result)).2.
Proof.
  intros Hin Hp Hu.
  apply list_elem_of_split in Hin as (pre & post & ->).
  rewrite fold_left_app. cbn [fold_left].
  set (st := fold_left (pushProvider user) pre (db, no_result)).
  assert (Hst : providers st.1 !! cp_id r = Some p).
  { by apply (proj2 (providerLoop_guarded pre (db, no_result))). }
  destruct st as [db1 res1] eqn:E. cbn in Hst.
  destruct (pushProvider_step user db1 r) as (db' & f & Hs & Heq).
  rewrite Heq, providerLoop_results. cbn.
  destruct Hs; try congruence.
  cbn. set_solver.
Qed.

Lemma transaction_create_collision row db t :
  transactions db !! transaction_id row = Some t ->
  prisma.transaction_create row db = inl (UniqueConstraintFailed "id").
Proof.
  intros H. unfold prisma.transaction_create.
  rewrite decide_True; [done | by eexists].
Qed.

Lemma transactionLoop_collision l db r t :
  r ∈ l -> transactions db !! ct_id r = Some t -> userId t <> user ->
  mkSyncError (ct_id r) (message (UniqueConstraintFailed "id"))
  ∈ errors (fold_left (pushTransaction user) l (db, no_result)).2.
Proof.
  intros Hin Hp Hu.
  apply list_elem_of_split in Hin as (pre & post & ->).
  rewrite fold_left_app. cbn [fold_left].
  set (st := fold_left (pushTransaction user) pre (db, no_result)).
  assert (Hst : transactions st.1 !! ct_id r = Some t).
  { by apply (proj2 (transactionLoop_guarded pre (db, no_result))). }
  destruct st as [db1 res1] eqn:E. cbn in Hst.
  destruct (pushTransaction_step user db1 r) as (db' & f & Hs & Heq).
  rewrite Heq, transactionLoop_results. cbn.
  destruct Hs as [ | | Hn _ | err Hf Hc]; try congruence.
  erewrite (transaction_create_collision (transaction_create_data user r)) in Hc
    by exact Hst.
  injection Hc as <-. cbn. set_solver.
Qed.

End Ownership.

(** C10: after a push every provider and transaction row is either the
    row that was there before, untouched, or a row owned by the caller (the
    owner a client may have put in the record is never read); every row of
    another user is still there, unchanged; and a submitted record whose id
    is held by another user's row gets a per-record error. *)
Theorem push_respects_ownership (a1 a2 : prisma.Availability)
    (user : string) (body : PushBody) (db : Store) :
  let db' := (push a1 a2 user body db).1 in
  let results := (pushLoops user body db).2 in
  providers_guarded user (providers db) (providers db')
  /\ transactions_guarded user (transactions db) (transactions db')
  /\ (forall r p,
        r ∈ body_providers body ->
        providers db !! cp_id r = Some p -> provider_userId p <> Some user ->
        mkSyncError (cp_id r) (message (UniqueConstraintFailed "id"))
        ∈ errors (results_providers results))
  /\ (forall r t,
        r ∈ body_transactions body ->
        transactions db !! ct_id r = Some t -> userId t <> user ->
        mkSyncError (ct_id r) (message (UniqueConstraintFailed "id"))
        ∈ errors (results_transactions results)).
Proof.
  cbv zeta. destruct (push_store a1 a2 user body db) as [l ->].
  cbn [providers transactions set_syncLogs].
  rewrite pushLoops_providers, pushLoops_transactions, pushLoops_results.
  cbn [results_providers results_transactions].
  set (st1 := fold_left (pushProvider user) (body_providers body) (db, no_result)).
  repeat split.
  - apply (providerLoop_guarded user (body_providers body) (db, no_result)).
  - apply (providerLoop_guarded user (body_providers body) (db, no_result)).
  - pose proof (transactionLoop_guarded user (body_transactions body)
                  (st1.1, no_result)) as [H _].
    cbn [fst] in H. unfold st1 in H.
    by rewrite providerLoop_transactions in H.
  - pose proof (transactionLoop_guarded user (body_transactions body)
                  (st1.1, no_result)) as [_ H].
    cbn [fst] in H. unfold st1 in H.
    by rewrite providerLoop_transactions in H.
  - intros r p. apply providerLoop_collision.
  - intros r t Hin Ht Hu.
    eapply transactionLoop_collision; [done| |done].
    subst st1. by rewrite providerLoop_transactions.
Qed.

Lemma push_respects_ownership_witness :
  providers (push prisma.Up prisma.Up "alice"
               (mkPushBody [] [colliding_provider; fresh_provider] [])
               small_store).1 !! "prov-2"
  = Some bob_provider
  /\ mkSyncError "prov-2" (message (UniqueConstraintFailed "id"))
     ∈ errors (results_providers
                 (pushLoops "alice"
                    (mkPushBody [] [colliding_provider; fresh_provider] [])
                    small_store).2).
Proof.
  pose proof (push_respects_ownership prisma.Up prisma.Up "alice"
                (mkPushBody [] [colliding_provider; fresh_provider] [])
                small_store) as H.
  cbv zeta in H. destruct H as ((_ & Hkeep) & _ & Herr & _).
  split.
  - apply Hkeep; [vm_compute; reflexivity | vm_compute; discriminate].
  - apply (Herr colliding_provider bob_provider).
    + apply list_elem_of_here.
    + vm_compute. reflexivity.
    + vm_compute. discriminate.
Defined.

(** ** Pushing a batch twice *)

Section Idempotence.

Context (user : string).

Lemma push_error_grows e r : errors (push_error e r) <> errors r.
Proof.
  cbn. intros H. apply (f_equal length) in H.
  rewrite length_app in H. cbn in H. lia.
Qed.

(** An iteration that reports no error leaves its record settled. *)
Lemma provider_step_settles db r db' f res :
  provider_step user db r db' f -> errors (f res) = errors res ->
  provider_settled user (cp_id r) (cp_updatedAt r) db'.
Proof.
  unfold provider_settled.
  destruct 1 as [e He Hu Hlt | e He Hu Hle | Hn | e He Hu]; cbn; intros Herr.
  - rewrite lookup_insert_eq. eexists; split; [done|]. cbn. split; [done | lia].
  - eauto.
  - rewrite lookup_insert_eq. eexists; split; [done|]. cbn. split; [done | lia].
  - by apply (push_error_grows _ res) in Herr.
Qed.

Lemma transaction_step_settles db r db' f res :
  transaction_step user db r db' f -> errors (f res) = errors res ->
  transaction_settled user (ct_id r) (ct_updatedAt r) db'.
Proof.
  unfold transaction_settled.
  destruct 1 as [e He Hu Hlt | e He Hu Hle | Hn _ | err Hf Hc]; cbn; intros Herr.
  - rewrite lookup_insert_eq. eexists; split; [done|]. cbn. split; [done | lia].
  - eauto.
  - rewrite lookup_insert_eq. eexists; split; [done|]. cbn. split; [done | lia].
  - by apply (push_error_grows _ res) in Herr.
Qed.

(** A loop that ends with an empty error list has settled every record. *)
Lemma providerLoop_settles l db :
  errors (fold_left (pushProvider user) l (db, no_result)).2 = [] ->
  forall r, r ∈ l ->
    provider_settled user (cp_id r) (cp_updatedAt r)
      (fold_left (pushProvider user) l (db, no_result)).1.
Proof.
  revert db. induction l as [|r0 l IH]; intros db Herr r Hin; [by inversion Hin|].
  cbn [fold_left] in *.
  destruct (pushProvider_step user db r0) as (db' & f & Hs & Heq).
  rewrite Heq in *. rewrite providerLoop_results in Herr |- *. cbn in Herr |- *.
  apply app_eq_nil in Herr as [Hf Hl].
  apply elem_of_cons in Hin as [->|Hin].
  - apply (providerLoop_settled user l (db', no_result)). cbn.
    eapply provider_step_settles; [done|]. by rewrite Hf.
  - by apply IH.
Qed.

Lemma transactionLoop_settles l db :
  errors (fold_left (pushTransaction user) l (db, no_result)).2 = [] ->
  forall r, r ∈ l ->
    transaction_settled user (ct_id r) (ct_updatedAt r)
      (fold_left (pushTransaction user) l (db, no_result)).1.
Proof.
  revert db. induction l as [|r0 l IH]; intros db Herr r Hin; [by inversion Hin|].
  cbn [fold_left] in *.
  destruct (pushTransaction_step user db r0) as (db' & f & Hs & Heq).
  rewrite Heq in *. rewrite transactionLoop_results in Herr |- *. cbn in Herr |- *.
  apply app_eq_nil in Herr as [Hf Hl].
  apply elem_of_cons in Hin as [->|Hin].
  - apply (transactionLoop_settled user l (db', no_result)). cbn.
    eapply transaction_step_settles; [done|]. by rewrite Hf.
  - by apply IH.
Qed.

(** A loop over settled records only is the identity. *)
Lemma providerLoop_all_settled l st :
  (forall r, r ∈ l -> provider_settled user (cp_id r) (cp_updatedAt r) st.1) ->
  fold_left (pushProvider user) l st = st.
Proof.
  induction l as [|r l IH]; intros H; cbn; [done|].
  rewrite pushProvider_settled by (apply H; left).
  apply IH. intros r' Hr'. apply H. by right.
Qed.

Lemma transactionLoop_all_settled l st :
  (forall r, r ∈ l -> transaction_settled user (ct_id r) (ct_updatedAt r) st.1) ->
  fold_left (pushTransaction user) l st = st.
Proof.
  induction l as [|r l IH]; intros H; cbn; [done|].
  rewrite pushTransaction_settled by (apply H; left).
  apply IH. intros r' Hr'. apply H. by right.
Qed.

Lemma pushLoops_idle body db :
  (forall r, r ∈ body_providers body ->
     provider_settled user (cp_id r) (cp_updatedAt r) db) ->
  (forall r, r ∈ body_transactions body ->
     transaction_settled user (ct_id r) (ct_updatedAt r) db) ->
  pushLoops user body db = (db, mkResults no_result no_result no_result).
Proof.
  intros Hp Ht. unfold pushLoops.
  rewrite (providerLoop_all_settled _ (db, no_result)) by done.
  by rewrite (transactionLoop_all_settled _ (db, no_result)).
Qed.

Lemma pushLoops_settles body db :
  errors (results_providers (pushLoops user body db).2) = [] ->
  errors (results_transactions (pushLoops user body db).2) = [] ->
  (forall r, r ∈ body_providers body ->
     provider_settled user (cp_id r) (cp_updatedAt r) (pushLoops user body db).1)
  /\ (forall r, r ∈ body_transactions body ->
     transaction_settled user (ct_id r) (ct_updatedAt r) (pushLoops user body db).1).
Proof.
  rewrite pushLoops_results. cbn [results_providers results_transactions].
  intros Hp Ht. split; intros r Hr.
  - pose proof (providerLoop_settles _ db Hp r Hr) as (e & He & Hu & Hle).
    exists e. rewrite pushLoops_providers. done.
  - pose proof (transactionLoop_settles _ _ Ht r Hr) as (e & He & Hu & Hle).
    exists e. rewrite pushLoops_transactions. done.
Qed.

End Idempotence.

(** C2 (as the code has it): when the first push of a batch reported no
    per-record error, a second push of the same batch creates nothing,
    updates nothing and reports no error; it leaves every table as the
    first push left it, except the audit log, which gains its row. *)
Theorem push_twice (a1 a2 a2' : prisma.Availability)
    (user : string) (body : PushBody) (db : Store) :
  let first := push a1 a2 user body db in
  let second := push prisma.Up a2' user body first.1 in
  errors (results_providers (pushLoops user body db).2) = [] ->
  errors (results_transactions (pushLoops user body db).2) = [] ->
  second.2 = Some (SyncCompleted (mkResults no_result no_result no_result))
  /\ second.1
     = set_syncLogs
         (syncLogs first.1
          ++ [mkSyncLog user "push" (submitted body) "success" None])
         first.1.
Proof.
  cbv zeta. intros Hp Ht.
  destruct (pushLoops_settles user body db Hp Ht) as [Sp St].
  destruct (push_store a1 a2 user body db) as [l ->].
  rewrite push_completed.
  rewrite (pushLoops_idle user body (set_syncLogs l (pushLoops user body db).1));
    done.
Qed.

Lemma push_twice_witness :
  (push prisma.Up prisma.Up "alice" (mkPushBody [] [stale_provider; fresh_provider] [])
     (push prisma.Up prisma.Up "alice"
        (mkPushBody [] [stale_provider; fresh_provider] []) small_store).1).2
  = Some (SyncCompleted (mkResults no_result no_result no_result)).
Proof.
  refine (proj1 (push_twice prisma.Up prisma.Up prisma.Up "alice"
                   (mkPushBody [] [stale_provider; fresh_provider] [])
                   small_store _ _)); vm_compute; reflexivity.
Defined.

(** C2 as stated fails: a record refused by the first push (here, an id
    held by another user's row) is refused again by the second push, whose
    error list is therefore not empty; and the second call appends its own
    audit row, so the store is not the one the first push left. *)
Lemma push_twice_counterexample :
  let body := mkPushBody [] [colliding_provider] [] in
  let first := push prisma.Up prisma.Up "alice" body small_store in
  let second := push prisma.Up prisma.Up "alice" body first.1 in
  second.2
  = Some (SyncCompleted
            (mkResults no_result
               (mkSyncResult 0 0
                  [mkSyncError "prov-2" (message (UniqueConstraintFailed "id"))])
               no_result))
  /\ syncLogs first.1 = [mkSyncLog "alice" "push" 1 "success" None]
  /\ syncLogs second.1 = [mkSyncLog "alice" "push" 1 "success" None;
                          mkSyncLog "alice" "push" 1 "success" None].
Proof. cbv zeta. repeat split; vm_compute; reflexivity. Qed.

(** Without that hypothesis the second push can even write: a copy refused
    by the first push for a missing provider finds, the second time, the
    row its older twin created, and overwrites it. *)
Lemma second_push_may_update :
  let body := mkPushBody [dangling_operation; sound_operation] [] [] in
  let first := push prisma.Up prisma.Up "alice" body small_store in
  let second := push prisma.Up prisma.Up "alice" body first.1 in
  (exists results, first.2 = Some (SyncCompleted results)
     /\ results_transactions results
        = mkSyncResult 1 0
            [mkSyncError "op-1" (message (ForeignKeyConstraintFailed "providerId"))])
  /\ (exists results, second.2 = Some (SyncCompleted results)
        /\ results_transactions results = mkSyncResult 0 1 [])
  /\ updatedAt <$> transactions first.1 !! "op-1" = Some 600
  /\ updatedAt <$> transactions second.1 !! "op-1" = Some 700.
Proof.
  cbv zeta. split; [|split; [|split]].
  - eexists. split; vm_compute; reflexivity.
  - eexists. split; vm_compute; reflexivity.
  - vm_compute; reflexivity.
  - vm_compute; reflexivity.
Qed.

(** ** The expenses of a batch *)

Lemma providerLoop_rest user l st :
  let st' := fold_left (pushProvider user) l st in
  expenses st'.1 = expenses st.1 /\ syncLogs st'.1 = syncLogs st.1
  /\ advances st'.1 = advances st.1 /\ deliveries st'.1 = deliveries st.1
  /\ expenseCategories st'.1 = expenseCategories st.1
  /\ productServices st'.1 = productServices st.1.
Proof. cbv zeta. by rewrite providerLoop_frame. Qed.

Lemma transactionLoop_rest user l st :
  let st' := fold_left (pushTransaction user) l st in
  expenses st'.1 = expenses st.1 /\ syncLogs st'.1 = syncLogs st.1
  /\ advances st'.1 = advances st.1 /\ deliveries st'.1 = deliveries st.1
  /\ expenseCategories st'.1 = expenseCategories st.1
  /\ productServices st'.1 = productServices st.1.
Proof. cbv zeta. by rewrite transactionLoop_frame. Qed.

Lemma pushLoops_rest user body db :
  let db' := (pushLoops user body db).1 in
  expenses db' = expenses db /\ syncLogs db' = syncLogs db
  /\ advances db' = advances db /\ deliveries db' = deliveries db
  /\ expenseCategories db' = expenseCategories db
  /\ productServices db' = productServices db.
Proof.
  cbv zeta. unfold pushLoops.
  pose proof (providerLoop_rest user (body_providers body) (db, no_result)) as Hp.
  destruct (fold_left (pushProvider user) _ _) as [db1 rp].
  pose proof (transactionLoop_rest user (body_transactions body) (db1, no_result)) as Ht.
  destruct (fold_left (pushTransaction user) _ _) as [db2 rt].
  cbn in *. intuition congruence.
Qed.

(** C4, what the code does: the handler takes the [expenses] array and
    counts it in the audit row, but runs no loop over it.  Whatever is
    submitted, the Expense table is left as it was and the result for
    expenses is zero created, zero updated, no error. *)
Theorem push_ignores_expenses (a1 a2 : prisma.Availability)
    (user : string) (body : PushBody) (db : Store) :
  expenses (push a1 a2 user body db).1 = expenses db
  /\ results_expenses (pushLoops user body db).2 = no_result
  /\ (push prisma.Up a2 user body db).2
     = Some (SyncCompleted (pushLoops user body db).2)
  /\ syncLogs (push prisma.Up a2 user body db).1
     = syncLogs db ++ [mkSyncLog user "push" (submitted body) "success" None].
Proof.
  destruct (pushLoops_rest user body db) as (He & Hl & _).
  repeat split.
  - destruct (push_store a1 a2 user body db) as [l ->]. exact He.
  - by rewrite pushLoops_results.
  - by rewrite push_completed.
  - rewrite push_completed. cbn. by rewrite Hl.
Qed.

(** One submitted expense: reported as synchronised (one record, success),
    neither stored nor counted as created. *)
Lemma push_drops_submitted_expense :
  let out := push prisma.Up prisma.Up "alice"
               (mkPushBody [] [] [submitted_expense]) small_store in
  out.2 = Some (SyncCompleted (mkResults no_result no_result no_result))
  /\ expenses out.1 = [general_expense]
  /\ syncLogs out.1 = [mkSyncLog "alice" "push" 1 "success" None].
Proof. cbv zeta. repeat split; vm_compute; reflexivity. Qed.

(** ** The audit row of a push *)

(** C7 (as the code has it): a push that completes writes exactly one
    SyncLog row, with status success and the number of submitted records
    (transactions, providers and expenses); a push whose dispatch fails
    writes exactly one row with status failed, the error message, and a
    record count of 0; when that write fails too, no row is written and no
    response is sent. *)
Theorem push_audit_row (a1 a2 : prisma.Availability)
    (user : string) (body : PushBody) (db : Store) :
  let out := push a1 a2 user body db in
  match a1, a2 with
  | prisma.Up, _ =>
      syncLogs out.1
      = syncLogs db ++ [mkSyncLog user "push" (submitted body) "success" None]
      /\ out.2 = Some (SyncCompleted (pushLoops user body db).2)
  | prisma.Down reason, prisma.Up =>
      syncLogs out.1
      = syncLogs db ++ [mkSyncLog user "push" 0 "failed" (Some reason)]
      /\ out.2 = Some SyncFailed
  | prisma.Down _, prisma.Down _ =>
      syncLogs out.1 = syncLogs db /\ out.2 = None
  end.
Proof.
  cbv zeta. destruct (pushLoops_rest user body db) as (_ & Hl & _).
  unfold push. destruct (pushLoops user body db) as [db' results].
  cbn in Hl. destruct a1, a2; cbn; by rewrite ?Hl.
Qed.

(** C7 as stated fails on the failure path: one provider is submitted, the
    store is unreachable when the success row is written, and the row the
    handler then writes carries a record count of 0, not 1. *)
Lemma push_audit_row_counterexample :
  let body := mkPushBody [] [fresh_provider] [] in
  let out := push (prisma.Down "connection lost") prisma.Up "alice" body small_store in
  submitted body = 1%nat
  /\ out.2 = Some SyncFailed
  /\ syncLogs out.1
     = [mkSyncLog "alice" "push" 0 "failed" (Some "connection lost")].
Proof. cbv zeta. repeat split; vm_compute; reflexivity. Qed.

(** * Operation lifecycle *)

Section Lifecycle.

Context (db : Store) (id : string) (t : Transaction).
Hypothesis Hrow : transactions db !! id = Some t.
Hypothesis Hclosed : status t = CLOSED.





End Lifecycle.











(** * Synchronisation: pull *)

Lemma pull_transactions_spec user since db t :
  t ∈ pulled_transaction <$> pull_transactions user since db
  <-> (exists id, transactions db !! id = Some t)
      /\ userId t = user /\ since < updatedAt t.
Proof.
  unfold pull_transactions. rewrite <- list_fmap_compose.
  rewrite (list_fmap_ext _ id _ (fun _ _ _ => eq_refl)), list_fmap_id.
  rewrite list_elem_of_fmap. split.
  - intros ([k v] & -> & H). apply elem_of_map_to_list in H.
    apply map_lookup_filter_Some in H as [H [Hu Hs]]. cbn in *. eauto.
  - intros ((k & Hk) & Hu & Hs). exists (k, t). split; [done|].
    apply elem_of_map_to_list, map_lookup_filter_Some. done.
Qed.

Lemma pull_providers_spec user since db p :
  p ∈ pull_providers user since db
  <-> (exists id, providers db !! id = Some p)
      /\ provider_userId p = Some user /\ since < provider_updatedAt p.
Proof.
  unfold pull_providers. rewrite list_elem_of_fmap. split.
  - intros ([k v] & -> & H). apply elem_of_map_to_list in H.
    apply map_lookup_filter_Some in H as [H [Hu Hs]]. cbn in *. eauto.
  - intros ((k & Hk) & Hu & Hs). exists (k, p). split; [done|].
    apply elem_of_map_to_list, map_lookup_filter_Some. done.
Qed.

Lemma pull_expenses_spec since db e :
  e ∈ pulled_expense <$> pull_expenses since db
  <-> e ∈ expenses db
      /\ expense_transactionId e = None /\ since < expense_updatedAt e.
Proof.
  unfold pull_expenses. rewrite <- list_fmap_compose.
  rewrite (list_fmap_ext _ id _ (fun _ _ _ => eq_refl)), list_fmap_id.
  rewrite list_elem_of_filter. tauto.
Qed.

Lemma pull_categories_spec user db c :
  c ∈ pull_categories user db
  <-> c ∈ expenseCategories db
      /\ (category_isDefault c = true \/ category_userId c = Some user).
Proof. unfold pull_categories. rewrite list_elem_of_filter. tauto. Qed.

(** C3 (as the code has it): with the checkpoint taken as the epoch when
    [lastSync] is omitted, a pull returns exactly the caller's transactions
    and the caller's providers whose updatedAt is strictly greater than the
    checkpoint; exactly the general expenses (attached to no transaction)
    whose updatedAt is strictly greater than the checkpoint, of whatever
    user, since an expense has no owner; and exactly the categories that
    are default or the caller's, whatever the checkpoint. *)
Theorem pull_returns (a2 : prisma.Availability) (now : Timestamp)
    (user : string) (lastSync : option Timestamp) (db : Store) :
  let since := match lastSync with Some t => t | None => 0 end in
  exists data,
    (pull prisma.Up a2 now user lastSync db).2 = Some (PullCompleted data now)
    /\ (forall t, t ∈ pulled_transaction <$> data_transactions data
                  <-> (exists id, transactions db !! id = Some t)
                      /\ userId t = user /\ since < updatedAt t)
    /\ (forall p, p ∈ data_providers data
                  <-> (exists id, providers db !! id = Some p)
                      /\ provider_userId p = Some user
                      /\ since < provider_updatedAt p)
    /\ (forall e, e ∈ pulled_expense <$> data_expenses data
                  <-> e ∈ expenses db
                      /\ expense_transactionId e = None
                      /\ since < expense_updatedAt e)
    /\ (forall c, c ∈ data_categories data
                  <-> c ∈ expenseCategories db
                      /\ (category_isDefault c = true
                          \/ category_userId c = Some user)).
Proof.
  cbv zeta. eexists. split; [reflexivity|]. cbn [data_transactions data_providers data_expenses data_categories].
  split; [|split; [|split]].
  - apply pull_transactions_spec.
  - apply pull_providers_spec.
  - apply pull_expenses_spec.
  - apply pull_categories_spec.
Qed.

(** C3 as stated fails for general expenses: the one general expense of the
    store is returned to alice and to bob alike, and belongs to neither. *)
Lemma pull_expenses_counterexample :
  let to_alice := pull prisma.Up prisma.Up 1000 "alice" None small_store in
  let to_bob := pull prisma.Up prisma.Up 1000 "bob" None small_store in
  (exists data, to_alice.2 = Some (PullCompleted data 1000)
                /\ pulled_expense <$> data_expenses data = [general_expense])
  /\ (exists data, to_bob.2 = Some (PullCompleted data 1000)
                   /\ pulled_expense <$> data_expenses data = [general_expense])
  /\ expense_owner small_store general_expense = None.
Proof.
  cbv zeta. split; [|split].
  - eexists. split; vm_compute; reflexivity.
  - eexists. split; vm_compute; reflexivity.
  - reflexivity.
Qed.

(** * Further properties *)

(** ** Synchronisation status *)

Lemma syncLogs_after_push a2 user body db :
  syncLogs (push prisma.Up a2 user body db).1
  = syncLogs db ++ [mkSyncLog user "push" (submitted body) "success" None].
Proof.
  destruct (pushLoops_rest user body db) as (_ & Hl & _).
  rewrite push_completed. cbn. by rewrite Hl.
Qed.

(** X1: right after a push that completed, the status route reports that
    push: its row opens the history and is the last successful
    synchronisation. *)
Theorem syncStatus_after_push (a2 : prisma.Availability) (user : string)
    (body : PushBody) (db : Store) :
  let row := mkSyncLog user "push" (submitted body) "success" None in
  let s := syncStatus user (push prisma.Up a2 user body db).1 in
  lastSync s = Some row /\ head (history s) = Some row.
Proof.
  cbv zeta. unfold syncStatus. rewrite syncLogs_after_push.
  rewrite filter_app, filter_cons_True, filter_nil by done.
  rewrite reverse_app, reverse_singleton. cbn. done.
Qed.

(** X2: the history holds at most 20 rows, all of them rows of the caller
    found in the table; the last synchronisation reported is a successful
    row of that history, and none is reported only when the history holds
    no successful row. *)
Theorem syncStatus_sound (user : string) (db : Store) :
  let s := syncStatus user db in
  (length (history s) <= 20)%nat
  /\ (forall l, l ∈ history s -> l ∈ syncLogs db /\ log_userId l = user)
  /\ (forall r, lastSync s = Some r -> r ∈ history s /\ log_status r = "success")
  /\ (lastSync s = None ->
      forall l, l ∈ history s -> log_status l <> "success").
Proof.
  cbv zeta. unfold syncStatus. cbn [lastSync history].
  set (h := take 20 (reverse (filter (fun l => log_userId l = user) (syncLogs db)))).
  split; [subst h; rewrite length_take; lia|].
  split.
  { intros l Hl. subst h. apply elem_of_take in Hl as (i & Hl & _).
    apply list_elem_of_lookup_2 in Hl. rewrite elem_of_reverse in Hl.
    apply list_elem_of_filter in Hl. tauto. }
  split.
  - intros r Hr. apply find_some in Hr as [Hin Hs].
    apply bool_decide_eq_true in Hs. split; [by apply list_elem_of_In|done].
  - intros Hn l Hl Hs. apply list_elem_of_In in Hl.
    pose proof (find_none _ _ Hn l Hl) as Hf. cbn in Hf.
    by rewrite bool_decide_eq_false in Hf.
Qed.

(** X3: the last successful synchronisation is looked for among the 20
    most recent rows of the caller only, whatever the other users have
    logged in between: once 20 or more rows of the caller that are not
    successes have followed it, the route reports none. *)
Theorem syncStatus_forgets_old_success (user : string) (db : Store)
    (older recent : list SyncLog) :
  syncLogs db = older ++ recent ->
  (forall l, l ∈ recent -> log_userId l = user -> log_status l <> "success") ->
  (20 <= length (filter (fun l => log_userId l = user) recent))%nat ->
  lastSync (syncStatus user db) = None.
Proof.
  intros Hlogs Hrecent Hlen. unfold syncStatus. cbn [lastSync].
  rewrite Hlogs, filter_app, reverse_app.
  rewrite take_app_le by (rewrite length_reverse; lia).
  destruct (find _ _) as [r|] eqn:Hf; [|done].
  apply find_some in Hf as [Hin Hs]. apply bool_decide_eq_true in Hs.
  apply list_elem_of_In, elem_of_take in Hin as (i & Hin & _).
  apply list_elem_of_lookup_2 in Hin. rewrite elem_of_reverse in Hin.
  apply list_elem_of_filter in Hin as [Hu Hin].
  by destruct (Hrecent r Hin Hu).
Qed.

Lemma syncStatus_forgets_old_success_witness :
  lastSync (syncStatus "alice" shared_log_store) = None.
Proof.
  apply (syncStatus_forgets_old_success "alice" shared_log_store
           [old_success_log]
           (replicate 20 failed_log ++ [mkSyncLog "bob" "push" 1 "success" None])
           eq_refl).
  - intros l Hl Hu. apply elem_of_app in Hl as [Hl|Hl].
    + apply elem_of_replicate in Hl as [-> _]. discriminate.
    + apply list_elem_of_singleton in Hl as ->. discriminate.
  - vm_compute. lia.
Defined.

(** ** Movements and the delta pull *)

Lemma pull_transactions_ext user since db db' :
  transactions db' = transactions db ->
  (forall k t, transactions db !! k = Some t -> since < updatedAt t ->
               with_movements db' t = with_movements db t) ->
  pull_transactions user since db' = pull_transactions user since db.
Proof.
  intros Ht Hw. unfold pull_transactions. rewrite Ht.
  apply list_fmap_ext. intros i t Hi.
  apply list_elem_of_lookup_2, list_elem_of_fmap in Hi as ([k t'] & -> & Hi).
  apply elem_of_map_to_list, map_lookup_filter_Some in Hi as [Hk [_ Hs]].
  cbn in *. eauto.
Qed.

Lemma pull_same_data a1 a2 now user lastSync db db' :
  pull_transactions user (lastSyncDate lastSync) db'
  = pull_transactions user (lastSyncDate lastSync) db ->
  providers db' = providers db -> expenses db' = expenses db ->
  expenseCategories db' = expenseCategories db ->
  (pull a1 a2 now user lastSync db').2 = (pull a1 a2 now user lastSync db).2.
Proof.
  intros Ht Hp He Hc. unfold pull, pull_providers, pull_expenses,
    pull_categories, with_category. cbv zeta. rewrite Ht, Hp, He, Hc.
  destruct a1, a2; reflexivity.
Qed.

(** X4: adding an advance or a delivery does not touch the transaction's
    updatedAt, so a client whose checkpoint is not older than the
    transaction's updatedAt is sent exactly what it would have been sent
    before the movement was added: the new movement reaches it only once
    the transaction itself is written. *)
Theorem pull_misses_new_movement (a1 a2 : prisma.Availability)
    (now since : Timestamp) (user id : string) (x : float)
    (desc : option string) (db : Store) (t : Transaction) :
  transactions db !! id = Some t ->
  (forall k t', transactions db !! k = Some t' -> transaction_id t' = k) ->
  updatedAt t <= since ->
  (pull a1 a2 now user (Some since) (addAdvance user id x desc db).1).2
  = (pull a1 a2 now user (Some since) db).2
  /\ (pull a1 a2 now user (Some since) (addDelivery user id x desc db).1).2
     = (pull a1 a2 now user (Some since) db).2.
Proof.
  intros Hrow Hkey Hold. split.
  - unfold addAdvance.
    destruct (prisma.transaction_findFirst_status id user ACTIVE db); [|done].
    cbn [fst]. apply pull_same_data; try done.
    apply pull_transactions_ext; [done|]. intros k t' Hk Hnew. cbn in Hnew.
    unfold with_movements, advances_of, deliveries_of. cbn. f_equal.
    rewrite filter_app, filter_cons_False, filter_nil, app_nil_r; [done|].
    cbn. rewrite (Hkey _ _ Hk). intros <-.
    assert (t' = t) as -> by congruence. lia.
  - unfold addDelivery.
    destruct (prisma.transaction_findFirst_status id user ACTIVE db); [|done].
    cbn [fst]. apply pull_same_data; try done.
    apply pull_transactions_ext; [done|]. intros k t' Hk Hnew. cbn in Hnew.
    unfold with_movements, advances_of, deliveries_of. cbn. f_equal.
    rewrite filter_app, filter_cons_False, filter_nil, app_nil_r; [done|].
    cbn. rewrite (Hkey _ _ Hk). intros <-.
    assert (t' = t) as -> by congruence. lia.
Qed.

Lemma pull_misses_new_movement_witness :
  (pull prisma.Up prisma.Up 2000 "bob" (Some 150)
     (addAdvance "bob" "op-5" 25 None busy_store).1).2
  = (pull prisma.Up prisma.Up 2000 "bob" (Some 150) busy_store).2
  /\ advances_of "op-5" (addAdvance "bob" "op-5" 25 None busy_store).1
     = [mkAdvance 25 None "op-5"].
Proof.
  split; [|vm_compute; reflexivity].
  refine (proj1 (pull_misses_new_movement prisma.Up prisma.Up 2000 150
                   "bob" "op-5" 25 None busy_store bob_operation _ _ _)).
  - vm_compute; reflexivity.
  - intros k t' Hk. unfold busy_store in Hk. cbn in Hk.
    apply lookup_insert_Some in Hk as [[<- <-]|[_ Hk]]; [done|].
    apply lookup_insert_Some in Hk as [[<- <-]|[_ Hk]]; [done|].
    by rewrite lookup_empty in Hk.
  - vm_compute. discriminate.
Defined.

(** X5: what a push stored, the pull gives back.  For a batch of records
    whose dates are all valid: when the push reported no error for
    providers, every submitted provider has a row under its id that the
    caller's pull returns for every checkpoint older than the record's
    updatedAt; likewise for transactions. *)
Theorem push_then_pull (a1 a2 : prisma.Availability) (user : string)
    (body : PushBody) (db : Store) (since : Timestamp) :
  let db' := (push a1 a2 user body db).1 in
  (forall r, r ∈ body_providers body -> provider_dates_valid r) ->
  (forall r, r ∈ body_transactions body -> transaction_dates_valid r) ->
  errors (results_providers (pushLoops user body db).2) = [] ->
  errors (results_transactions (pushLoops user body db).2) = [] ->
  (forall r, r ∈ body_providers body -> since < cp_updatedAt r ->
     exists p, providers db' !! cp_id r = Some p
               /\ provider_userId p = Some user
               /\ cp_updatedAt r <= provider_updatedAt p
               /\ p ∈ pull_providers user since db')
  /\ (forall r, r ∈ body_transactions body -> since < ct_updatedAt r ->
        exists t, transactions db' !! ct_id r = Some t
                  /\ userId t = user
                  /\ ct_updatedAt r <= updatedAt t
                  /\ t ∈ pulled_transaction <$> pull_transactions user since db').
Proof.
  cbv zeta. intros _ _ Hp Ht.
  destruct (pushLoops_settles user body db Hp Ht) as [Sp St].
  destruct (push_store a1 a2 user body db) as [l ->].
  split.
  - intros r Hr Hs. destruct (Sp r Hr) as (p & Hrow & Hu & Hle).
    exists p. split; [done|]. split; [done|]. split; [done|].
    apply pull_providers_spec.
    split; [by exists (cp_id r)|]. split; [done|lia].
  - intros r Hr Hs. destruct (St r Hr) as (t & Hrow & Hu & Hle).
    exists t. split; [done|]. split; [done|]. split; [done|].
    apply pull_transactions_spec.
    split; [by exists (ct_id r)|]. split; [done|lia].
Qed.

Lemma push_then_pull_witness :
  exists p, providers (push prisma.Up prisma.Up "alice"
                         (mkPushBody [] [fresh_provider] []) small_store).1
            !! "prov-3" = Some p
            /\ provider_userId p = Some "alice"
            /\ cp_updatedAt fresh_provider <= provider_updatedAt p
            /\ p ∈ pull_providers "alice" 50
                     (push prisma.Up prisma.Up "alice"
                        (mkPushBody [] [fresh_provider] []) small_store).1.
Proof.
  refine (proj1 (push_then_pull prisma.Up prisma.Up "alice"
                   (mkPushBody [] [fresh_provider] []) small_store 50 _ _ _ _)
                fresh_provider _ _).
  - intros r Hr. apply list_elem_of_singleton in Hr as ->.
    unfold provider_dates_valid, valid_time. cbn. lia.
  - intros r Hr. by apply elem_of_nil in Hr.
  - vm_compute; reflexivity.
  - vm_compute; reflexivity.
  - apply list_elem_of_here.
  - vm_compute; reflexivity.
Defined.

(** ** Transactions *)

Lemma transaction_create_clash row db k t :
  transactions db !! k = Some t -> contractNumber t = contractNumber row ->
  exists e, prisma.transaction_create row db = inl e.
Proof.
  intros Hk Hcn. unfold prisma.transaction_create.
  case_decide; [eauto|]. rewrite decide_True; [eauto|].
  exists k, t. done.
Qed.

Lemma createTransaction_created newId cn now user b dir db :
  (createTransaction newId cn now user b dir db).2
  = Http 201 "Transaction created successfully" ->
  let row := mkTransaction newId cn (new_description b) ACTIVE
               (new_productServiceId b) (new_quantity b) (new_unitPrice b)
               (calculatedTotal (new_totalAmount b) (new_quantity b) (new_unitPrice b))
               now None user (new_organizationId b) (new_providerId b) now now in
  transactions db !! newId = None
  /\ (createTransaction newId cn now user b dir db).1
     = set_transactions (<[newId := row]> (transactions db)) db.
Proof.
  unfold createTransaction. cbv zeta.
  destruct (organization_exists _ _); [|discriminate].
  destruct (prisma.transaction_create _ db) as [e|db'] eqn:Hc; [discriminate|].
  intros _. by apply transaction_create_ok in Hc as [Hn ->].
Qed.

(** X6: contract numbers stay unique.  Once a transaction has been created
    under a contract number, a creation that draws the same number (the
    same day and the same four characters) fails with status 500 and
    leaves the store as it is, whoever asks. *)
Theorem createTransaction_same_number (newId cn : string) (now : Timestamp)
    (user : string) (b : CreateBody) (dir : Directory) (db : Store)
    (newId2 : string) (now2 : Timestamp) (user2 : string) (b2 : CreateBody) :
  (createTransaction newId cn now user b dir db).2
  = Http 201 "Transaction created successfully" ->
  let db1 := (createTransaction newId cn now user b dir db).1 in
  createTransaction newId2 cn now2 user2 b2 dir db1
  = (db1, Http 500 "Failed to create transaction").
Proof.
  intros H. cbv zeta.
  destruct (createTransaction_created _ _ _ _ _ _ _ H) as [_ ->].
  unfold createTransaction at 1. cbv zeta.
  destruct (organization_exists _ _); [|done].
  match goal with
  | |- context [prisma.transaction_create ?r ?d] =>
      destruct (transaction_create_clash r d newId _
                  (lookup_insert_eq _ _ _) eq_refl) as [e ->]
  end.
  done.
Qed.

Lemma createTransaction_witness_body :
  (createTransaction "op-2" "20250301-CCCC" 400 "alice"
     (mkCreateBody "prov-1" None None (Some 100%float) (Some 10%float) None None)
     small_directory small_store).2
  = Http 201 "Transaction created successfully".
Proof. vm_compute. reflexivity. Qed.

Lemma createTransaction_same_number_witness :
  createTransaction "op-3" "20250301-CCCC" 500 "bob"
    (mkCreateBody "prov-2" None None None None None None) small_directory
    (createTransaction "op-2" "20250301-CCCC" 400 "alice"
       (mkCreateBody "prov-1" None None (Some 100%float) (Some 10%float) None None)
       small_directory small_store).1
  = ((createTransaction "op-2" "20250301-CCCC" 400 "alice"
        (mkCreateBody "prov-1" None None (Some 100%float) (Some 10%float) None None)
        small_directory small_store).1,
     Http 500 "Failed to create transaction").
Proof.
  exact (createTransaction_same_number _ _ _ _ _ _ _ "op-3" 500 "bob"
           (mkCreateBody "prov-2" None None None None None None)
           createTransaction_witness_body).
Defined.






(** X8: closing works once.  On an ACTIVE transaction of the caller, under
    an id the validator accepts, the close route answers 200 and stores
    the transaction CLOSED, with [closedAt] the time the handler read and
    [updatedAt] the time of the write, every other field and every other
    transaction kept; a second close then answers 404 and changes
    nothing. *)
Theorem close_once `{V : Validator} (now stamp now' stamp' : Timestamp)
    (user id : string) (db : Store) (t : Transaction) :
  transactions db !! id = Some t -> userId t = user -> status t = ACTIVE ->
  isUUID id = true ->
  let out := POST_transaction_close now stamp user id db in
  out.2 = Http 200 "Transaction closed successfully"
  /\ (exists t', transactions out.1 !! id = Some t'
                 /\ status t' = CLOSED /\ closedAt t' = Some now
                 /\ updatedAt t' = stamp
                 /\ transaction_id t' = transaction_id t
                 /\ contractNumber t' = contractNumber t
                 /\ description t' = description t
                 /\ productServiceId t' = productServiceId t
                 /\ quantity t' = quantity t /\ unitPrice t' = unitPrice t
                 /\ totalAmount t' = totalAmount t
                 /\ transactionDate t' = transactionDate t
                 /\ userId t' = userId t
                 /\ organizationId t' = organizationId t
                 /\ providerId t' = providerId t
                 /\ createdAt t' = createdAt t)
  /\ (forall k, k <> id -> transactions out.1 !! k = transactions db !! k)
  /\ POST_transaction_close now' stamp' user id out.1
     = (out.1, Http 404 "Transaction not found or already closed").
Proof.
  intros Hrow Hu Hs Hid. cbv zeta.
  unfold POST_transaction_close. rewrite Hid.
  unfold closeTransaction, prisma.transaction_updateMany,
    prisma.transaction_findFirst_status, prisma.transaction_findFirst.
  rewrite Hrow, !decide_True by done. cbn.
  rewrite lookup_insert_eq. cbn. rewrite decide_True by done.
  split; [done|]. split; [eexists; split; [done|]; by repeat split|].
  split; [|done]. intros k Hk. by rewrite lookup_insert_ne.
Qed.

Lemma close_once_witness :
  (POST_transaction_close (V := example_validator) 1000 1002 "bob" haul_id
     registered_store).2
  = Http 200 "Transaction closed successfully".
Proof.
  refine (proj1 (close_once (V := example_validator) 1000 1002 2000 2001
                   "bob" haul_id registered_store haul _ eq_refl eq_refl _)).
  - vm_compute; reflexivity.
  - vm_compute; reflexivity.
Defined.







(** ** Expenses *)

(** X11: a general expense has no owner, and any user can delete it: the
    route answers 200 to whoever calls, the expense is gone and every
    expense with another id is kept. *)
Theorem deleteExpense_general (user : string) (db : Store) (e : Expense) :
  e ∈ expenses db -> expense_transactionId e = None ->
  let out := deleteExpense user (expense_id e) db in
  out.2 = Http 200 "Expense deleted successfully"
  /\ (forall e', e' ∈ expenses out.1
                 <-> e' ∈ expenses db /\ expense_id e' <> expense_id e).
Proof.
  intros He Hg. cbv zeta. unfold deleteExpense.
  destruct (find _ _) as [e0|] eqn:Hf.
  - cbn. split; [done|]. intros e'. rewrite list_elem_of_filter. tauto.
  - exfalso. apply list_elem_of_In in He.
    pose proof (find_none _ _ Hf e He) as Hn.
    unfold expense_deletable in Hn.
    rewrite bool_decide_eq_true_2, (bool_decide_eq_true_2 (_ = None)) in Hn by done.
    by rewrite orb_true_r in Hn.
Qed.

Lemma deleteExpense_general_witness :
  (deleteExpense "bob" "exp-1" small_store).2
  = Http 200 "Expense deleted successfully"
  /\ (forall e', e' ∈ expenses (deleteExpense "bob" "exp-1" small_store).1
                 <-> e' ∈ expenses small_store /\ expense_id e' <> "exp-1").
Proof.
  refine (deleteExpense_general "bob" small_store general_expense _ eq_refl).
  apply list_elem_of_here.
Defined.

(** X12: an expense attached to a transaction can be deleted by the owner
    of that transaction only: for any other caller the route leaves the
    store as it is, and answers 404 when the id passes the validator, 400
    when it does not. *)
Theorem deleteExpense_guard `{V : Validator} (user id : string) (db : Store) :
  (forall e, e ∈ expenses db -> expense_id e = id ->
             expense_transactionId e <> None
             /\ expense_owner db e <> Some user) ->
  DELETE_expense user id db
  = (db, if isUUID id then Http 404 "Expense not found" else validation_failed).
Proof.
  intros H. unfold DELETE_expense. destruct (isUUID id); [|done].
  unfold deleteExpense.
  destruct (find _ _) as [e|] eqn:Hf; [|done].
  apply find_some in Hf as [He Hd]. apply list_elem_of_In in He.
  unfold expense_deletable in Hd.
  apply andb_true_iff in Hd as [Hid Hd]. apply bool_decide_eq_true in Hid.
  destruct (H e He Hid) as [Hn Ho].
  apply orb_true_iff in Hd as [Hd|Hd]; apply bool_decide_eq_true in Hd; done.
Qed.

Lemma deleteExpense_guard_witness :
  DELETE_expense (V := example_validator) "alice" toll_id registered_store
  = (registered_store, Http 404 "Expense not found").
Proof.
  apply (deleteExpense_guard (V := example_validator)). intros e He Hid.
  cbn in He.
  apply elem_of_cons in He as [->|He]; [|by apply elem_of_nil in He].
  split; [discriminate|]. vm_compute. discriminate.
Defined.

Lemma expense_create_inr row db db' :
  expense_create row db = inr db' ->
  db' = set_expenses (expenses db ++ [row]) db.
Proof.
  unfold expense_create.
  destruct (bool_decide _); [discriminate|].
  destruct (bool_decide _); [|discriminate].
  destruct (expense_transactionId row); [case_decide|]; congruence.
Qed.

(** X13: a general expense is shared by all users from the moment it is
    created: once the creation has answered 201, the pull of any user with
    a checkpoint older than the creation returns it. *)
Theorem createExpense_then_pull (newId : string) (now : Timestamp)
    (amount : float) (categoryId : string) (desc : option string) (db : Store)
    (a2 : prisma.Availability) (now' since : Timestamp) (user : string) :
  (createExpense newId now amount categoryId desc db).2
  = Http 201 "Expense created successfully" ->
  since < now ->
  exists data,
    (pull prisma.Up a2 now' user (Some since)
       (createExpense newId now amount categoryId desc db).1).2
    = Some (PullCompleted data now')
    /\ mkExpense newId amount desc categoryId None now
       ∈ pulled_expense <$> data_expenses data.
Proof.
  intros H Hs. eexists. split; [reflexivity|]. cbn [data_expenses].
  apply pull_expenses_spec. split; [|by split].
  revert H. unfold createExpense.
  destruct (expense_create _ db) as [e|db'] eqn:Hc; [discriminate|].
  intros _. apply expense_create_inr in Hc as ->. cbn.
  apply elem_of_app. right. apply list_elem_of_here.
Qed.

Lemma createExpense_then_pull_witness :
  exists data,
    (pull prisma.Up prisma.Up 900 "bob" (Some 500)
       (createExpense "exp-9" 700 15 "cat-1" None busy_store).1).2
    = Some (PullCompleted data 900)
    /\ mkExpense "exp-9" 15 None "cat-1" None 700
       ∈ pulled_expense <$> data_expenses data.
Proof.
  refine (createExpense_then_pull "exp-9" 700 15 "cat-1" None busy_store
            prisma.Up 900 500 "bob" _ _); vm_compute; reflexivity.
Defined.

(** ** Providers *)

Lemma truthy_string_Some o : o <> "" -> truthy_string (Some o) = Some o.
Proof. by destruct o. Qed.

Lemma activeTransactions_positive id db k t :
  transactions db !! k = Some t -> providerId t = id -> status t = ACTIVE ->
  (0 < activeTransactions_of id db)%nat.
Proof.
  intros Hk Hp Hs. unfold activeTransactions_of.
  destruct (size _) eqn:Hsize; [|lia].
  apply map_size_empty_iff in Hsize.
  assert (H : filter (fun kv => providerId kv.2 = id /\ status kv.2 = ACTIVE)
                     (transactions db) !! k = Some t)
    by by apply map_lookup_filter_Some.
  by rewrite Hsize, lookup_empty in H.
Qed.

Lemma activeTransactions_referenced id db :
  (0 < activeTransactions_of id db)%nat -> provider_referenced id db.
Proof.
  unfold activeTransactions_of. intros H.
  destruct (map_choose (filter (fun kv => providerId kv.2 = id /\ status kv.2 = ACTIVE)
                               (transactions db))) as (k & t & Hk).
  { intros He. rewrite He, map_size_empty in H. lia. }
  apply map_lookup_filter_Some in Hk as [Hk [Hp _]].
  exists k, t. done.
Qed.

(** X14: the delete route counts the ACTIVE transactions of the provider
    before it looks at who is asking.  As soon as one ACTIVE transaction
    names the provider, every caller who names it by an id the validator
    accepts, with or without access to the provider, is answered with that
    count, and nothing is deleted. *)
Theorem deleteProvider_discloses_count `{V : Validator} (id : string)
    (db : Store) (k : string) (t : Transaction) :
  transactions db !! k = Some t -> providerId t = id -> status t = ACTIVE ->
  forall user dir,
    exists n, (0 < n)%nat
              /\ n = activeTransactions_of id db
              /\ DELETE_provider user id dir db
                 = (db, if isUUID id then ProviderHasActive n
                        else ProviderValidationFailed).
Proof.
  intros Hk Hp Hs user dir.
  pose proof (activeTransactions_positive id db k t Hk Hp Hs) as Hn.
  exists (activeTransactions_of id db). split; [done|]. split; [done|].
  unfold DELETE_provider. destruct (isUUID id); [|done].
  unfold deleteProvider. cbv zeta.
  destruct (Nat.ltb_spec 0 (activeTransactions_of id db)); [done|lia].
Qed.

Lemma deleteProvider_discloses_count_witness :
  exists n, (0 < n)%nat
            /\ n = activeTransactions_of depot_id registered_store
            /\ DELETE_provider (V := example_validator) "alice" depot_id
                 registered_directory registered_store
               = (registered_store, ProviderHasActive n).
Proof.
  refine (deleteProvider_discloses_count (V := example_validator) depot_id
            registered_store haul_id haul _ eq_refl eq_refl "alice"
            registered_directory).
  vm_compute; reflexivity.
Defined.

(** X15: a provider is deleted exactly when its id passes the validator,
    the caller has access to it and no transaction, ACTIVE or CLOSED, names
    it; then only that row leaves the table.  In every other case the
    store is left as it is; in particular a provider that only CLOSED
    transactions name cannot be deleted, and the route fails; and a
    provider stored under an id the validator refuses cannot be deleted
    through the route at all. *)
Theorem deleteProvider_outcome `{V : Validator} (user id : string)
    (dir : Directory) (db : Store) :
  let out := DELETE_provider user id dir db in
  (out.2 = ProviderDeleted
   <-> isUUID id = true
       /\ (exists p, providers db !! id = Some p
                     /\ provider_accessible dir user p = true)
       /\ ~ provider_referenced id db)
  /\ (out.2 = ProviderDeleted ->
      out.1 = set_providers (delete id (providers db)) db)
  /\ (out.2 <> ProviderDeleted -> out.1 = db)
  /\ (forall p, isUUID id = true ->
                providers db !! id = Some p ->
                provider_accessible dir user p = true ->
                activeTransactions_of id db = 0%nat ->
                provider_referenced id db ->
                out = (db, ProviderDeleteFailed))
  /\ (isUUID id = false -> out = (db, ProviderValidationFailed)).
Proof.
  cbv zeta. unfold DELETE_provider.
  destruct (isUUID id) eqn:Hid.
  2:{ cbn. repeat split; try done. by intros (? & _). }
  unfold deleteProvider. cbv zeta.
  destruct (Nat.ltb_spec 0 (activeTransactions_of id db)) as [Hpos|Hzero].
  - apply activeTransactions_referenced in Hpos as Href.
    cbn. repeat split; try done; try tauto. intros; lia.
  - destruct (providers db !! id) as [p|] eqn:Hp.
    + destruct (provider_accessible dir user p) eqn:Ha.
      * destruct (decide (provider_referenced id db)) as [Href|Href]; cbn.
        -- repeat split; try done; try tauto.
        -- repeat split; try done; eauto.
      * cbn. repeat split; try done.
        -- intros (_ & (p' & [= <-] & Ha') & _). congruence.
        -- intros p' _ [= <-]. congruence.
    + cbn. repeat split; try done.
      intros (_ & (p' & ? & _) & _). done.
Qed.

Lemma deleteProvider_outcome_witness :
  DELETE_provider (V := example_validator) "alice" farm_id
    registered_directory registered_store
  = (registered_store, ProviderDeleteFailed).
Proof.
  refine (proj1 (proj2 (proj2 (proj2 (deleteProvider_outcome
            (V := example_validator) "alice" farm_id registered_directory
            registered_store)))) farm _ _ _ _ _).
  - vm_compute; reflexivity.
  - vm_compute; reflexivity.
  - vm_compute; reflexivity.
  - vm_compute; reflexivity.
  - exists harvest_id, harvest. split; vm_compute; reflexivity.
Defined.

Lemma deleteProvider_inaccessible user id dir db :
  (forall p, providers db !! id = Some p -> provider_accessible dir user p = false) ->
  (deleteProvider user id dir db).1 = db.
Proof.
  intros H. unfold deleteProvider. cbv zeta.
  destruct (0 <? _)%nat; [done|].
  destruct (providers db !! id) as [p|] eqn:Hp; [|done].
  by rewrite (H p eq_refl).
Qed.

(** X16: creating a provider for an organization asks for the organization
    to exist, not for the caller to belong to it.  A caller who is not a
    member, with a body that passes the validators, gets the provider
    created under the generated id, name trimmed, with no owner; the
    caller can then neither update it (404 for a valid patch, 400 for an
    invalid one, nothing written) nor delete it. *)
Theorem createProvider_for_foreign_organization `{V : Validator}
    (newId : string) (now : Timestamp) (user : string) (b : ProviderBody)
    (dir : Directory) (db : Store) (o : string) :
  notEmpty (trim (pb_name b)) = true ->
  optional isEmail (pb_email b) = true ->
  pb_organizationId b = Some o -> isUUID o = true -> o <> "" ->
  is_Some (organizations dir !! o) ->
  members dir !! (user, o) = None ->
  providers db !! newId = None ->
  let out := POST_providers newId now user b dir db in
  out.2 = Http 201 "Provider created successfully"
  /\ (exists p, providers out.1 !! newId = Some p
                /\ provider_name p = trim (pb_name b)
                /\ provider_userId p = None
                /\ provider_organizationId p = Some o)
  /\ (forall now' patch,
        PATCH_provider now' user newId patch dir out.1
        = (out.1, if isUUID newId
                     && optional (fun name => notEmpty (trim name)) (pp_name patch)
                     && optional isEmail (pp_email patch)
                  then Http 404 "Provider not found or access denied"
                  else validation_failed))
  /\ (DELETE_provider user newId dir out.1).1 = out.1.
Proof.
  intros Hname Hemail Hb Huuid Ho Horg Hmem Hfresh. cbv zeta.
  unfold POST_providers. rewrite Hname, Hemail, Hb. cbn [optional andb].
  rewrite Huuid.
  unfold createProvider. cbv zeta. cbn [pb_organizationId pb_name pb_email
    pb_phone pb_address pb_notes].
  rewrite truthy_string_Some by done.
  cbn [organization_exists]. rewrite bool_decide_eq_true_2 by done.
  unfold prisma.provider_create. cbn [provider_id]. rewrite Hfresh. cbn [fst snd].
  split; [done|]. split.
  { eexists. cbn. split; [apply lookup_insert_eq|done]. }
  split.
  - intros now' patch. unfold PATCH_provider.
    match goal with |- context [if ?c then _ else _] => destruct c end; [|done].
    unfold updateProvider. cbn.
    rewrite lookup_insert_eq. unfold provider_accessible. cbn.
    rewrite Hmem. cbn. done.
  - unfold DELETE_provider. destruct (isUUID newId); [|done].
    apply deleteProvider_inaccessible. intros p Hp. cbn in Hp.
    rewrite lookup_insert_eq in Hp. injection Hp as <-.
    unfold provider_accessible. cbn. by rewrite Hmem.
Qed.

Lemma createProvider_for_foreign_organization_witness :
  (POST_providers (V := example_validator) unused_id 300 "dave"
     (mkProviderBody " Acopio Este " None None None None (Some league_id))
     registered_directory registered_store).2
  = Http 201 "Provider created successfully"
  /\ (DELETE_provider (V := example_validator) "dave" unused_id
        registered_directory
        (POST_providers (V := example_validator) unused_id 300 "dave"
           (mkProviderBody " Acopio Este " None None None None (Some league_id))
           registered_directory registered_store).1).1
     = (POST_providers (V := example_validator) unused_id 300 "dave"
          (mkProviderBody " Acopio Este " None None None None (Some league_id))
          registered_directory registered_store).1.
Proof.
  destruct (createProvider_for_foreign_organization (V := example_validator)
              unused_id 300 "dave"
              (mkProviderBody " Acopio Este " None None None None (Some league_id))
              registered_directory registered_store league_id)
    as (H1 & _ & _ & H4).
  - vm_compute; reflexivity.
  - reflexivity.
  - reflexivity.
  - vm_compute; reflexivity.
  - discriminate.
  - vm_compute. eauto.
  - vm_compute; reflexivity.
  - vm_compute; reflexivity.
  - split; [exact H1 | exact H4].
Defined.

(** ** Organizations *)

Lemma memberRouteGuard_admin user o dir :
  o <> "" -> members dir !! (user, o) = Some ADMIN ->
  memberRouteGuard user (Some o) dir = None.
Proof.
  intros Ho Hm. unfold memberRouteGuard, checkOrganizationAccess. cbv zeta.
  rewrite (truthy_string_Some o) by done. cbn. by rewrite Hm.
Qed.

(** X17: the member routes read the organization to check from the request
    body, never from the path.  The two middlewares let a request through
    exactly when its body names an organization of which the caller is
    ADMIN; any other request changes nothing and is answered, by
    add-member, update-role and remove-member alike, 403 with the
    middleware's message when it passes the validators of the route and
    400 when it does not.  In particular a request that carries no organizationId in
    its body (or an empty one) is refused with "Organization membership
    required", whoever sends it, the administrators of the organization of
    the path included. *)
Theorem member_routes_need_body_organization `{V : Validator}
    (user id userId email : string)
    (role : option Role) (newRole : Role) (body_organizationId : option string)
    (dir : Directory) :
  (memberRouteGuard user body_organizationId dir = None
   <-> exists o, body_organizationId = Some o /\ o <> ""
                 /\ members dir !! (user, o) = Some ADMIN)
  /\ (forall e, memberRouteGuard user body_organizationId dir = Some e ->
         POST_organization_members user id body_organizationId email role dir
         = (dir, if isUUID id && isEmail email then Http 403 e
                 else validation_failed)
         /\ PATCH_organization_member user id userId body_organizationId
              newRole dir
            = (dir, if isUUID id && isUUID userId then Http 403 e
                    else validation_failed)
         /\ DELETE_organization_member user id userId body_organizationId dir
            = (dir, if isUUID id && isUUID userId then Http 403 e
                    else validation_failed))
  /\ (body_organizationId = None \/ body_organizationId = Some "" ->
      memberRouteGuard user body_organizationId dir
      = Some "Organization membership required").
Proof.
  split; [|split].
  - split.
    + unfold memberRouteGuard, checkOrganizationAccess. cbn.
      destruct body_organizationId as [o|]; [|discriminate].
      destruct (decide (o = "")) as [->|Ho]; [discriminate|].
      rewrite (truthy_string_Some o) by done.
      destruct (members dir !! (user, o)) as [[]|] eqn:Hm; cbn.
      * eauto.
      * discriminate.
      * destruct (organizations dir !! o) as [org|]; [|discriminate].
        case_decide; discriminate.
    + intros (o & -> & Ho & Hm). by apply memberRouteGuard_admin.
  - intros e He. unfold POST_organization_members, PATCH_organization_member,
      DELETE_organization_member, addMember, updateMemberRole, removeMember.
    rewrite He.
    repeat split;
      match goal with |- context [if ?c then _ else _] => by destruct c end.
  - intros [-> | ->]; reflexivity.
Qed.

(** X18: the administrator check and the change do not look at the same
    organization.  A caller who is ADMIN of the organization named in the
    body can add a member to, and remove a member from, the organization
    named in the path, whatever the caller's relation to that one. *)
Theorem member_routes_cross_organization (user o id : string) (dir : Directory) :
  o <> "" -> members dir !! (user, o) = Some ADMIN ->
  (forall email u role,
      users dir !! email = Some u ->
      members dir !! (user_id u, id) = None ->
      is_Some (organizations dir !! id) ->
      addMember user id (Some o) email role dir
      = (set_members (<[(user_id u, id) := default OPERATOR role]> (members dir)) dir,
         Http 201 "Member added successfully"))
  /\ (forall userId,
        is_Some (members dir !! (userId, id)) ->
        removeMember user id userId (Some o) dir
        = (set_members (delete (userId, id) (members dir)) dir,
           Http 200 "Member removed successfully")).
Proof.
  intros Ho Hadmin. split.
  - intros email u role Hu Hnew Horg. unfold addMember.
    rewrite memberRouteGuard_admin, Hu, Hnew by done.
    by rewrite decide_True.
  - intros userId [r Hr]. unfold removeMember.
    by rewrite memberRouteGuard_admin, Hr.
Qed.

Lemma member_routes_cross_organization_witness :
  members small_directory !! ("alice", "org-2") = None
  /\ removeMember "alice" "org-2" "bob" (Some "org-1") small_directory
     = (set_members (delete ("bob", "org-2") (members small_directory))
                    small_directory,
        Http 200 "Member removed successfully").
Proof.
  split; [vm_compute; reflexivity|].
  refine (proj2 (member_routes_cross_organization "alice" "org-1" "org-2"
                   small_directory _ _) "bob" _).
  - discriminate.
  - vm_compute; reflexivity.
  - vm_compute. eauto.
Defined.

Lemma members_of_spec id dir u role :
  (u, role) ∈ members_of id dir <-> members dir !! (u, id) = Some role.
Proof.
  unfold members_of. rewrite list_elem_of_fmap. split.
  - intros ([[u' o'] r] & [= -> ->] & Hin).
    apply elem_of_map_to_list, map_lookup_filter_Some in Hin as [Hin Ho].
    cbn in Ho. by subst.
  - intros Hm. exists ((u, id), role). split; [done|].
    by apply elem_of_map_to_list, map_lookup_filter_Some.
Qed.

(** X19: reading an organization does not ask for access to that
    organization.  A caller whose request names no organization, or names
    in its body any organization the caller is a member of, is returned
    the organization of the path together with exactly its members and
    their roles. *)
Theorem getOrganization_open (user id : string)
    (body_organizationId : option string) (dir : Directory)
    (org : Organization) :
  organizations dir !! id = Some org ->
  body_organizationId = None
  \/ (exists o, body_organizationId = Some o /\ o <> ""
                /\ is_Some (members dir !! (user, o))) ->
  exists ms,
    getOrganization user id body_organizationId dir = OrganizationFound org ms
    /\ (forall u role, (u, role) ∈ ms <-> members dir !! (u, id) = Some role).
Proof.
  intros H Hb. exists (members_of id dir). split; [|apply members_of_spec].
  unfold getOrganization, checkOrganizationAccess. cbn.
  destruct Hb as [-> | (o & -> & Ho & [r Hm])].
  - by rewrite H.
  - rewrite (truthy_string_Some o) by done. by rewrite Hm, H.
Qed.

Lemma getOrganization_open_witness :
  exists ms,
    getOrganization "alice" "org-2" (Some "org-1") small_directory
    = OrganizationFound guild ms
    /\ (forall u role, (u, role) ∈ ms
                       <-> members small_directory !! (u, "org-2") = Some role).
Proof.
  apply getOrganization_open; [vm_compute; reflexivity|].
  right. exists "org-1". split; [done|]. split; [done|].
  vm_compute. eauto.
Defined.

(** X20: the user who creates an organization becomes its ADMIN member:
    after the creation the administrator guard lets them through for that
    organization, and the organization reads back as created. *)
Theorem createOrganization_admin (newId user name : string)
    (desc : option string) (dir : Directory) :
  newId <> "" ->
  organizations dir !! newId = None ->
  members dir !! (user, newId) = None ->
  let out := createOrganization newId user name desc dir in
  out.2 = Http 201 "Organization created successfully"
  /\ members out.1 !! (user, newId) = Some ADMIN
  /\ memberRouteGuard user (Some newId) out.1 = None
  /\ organizations out.1 !! newId = Some (mkOrganization newId name desc user)
  /\ (forall k, k <> (user, newId) -> members out.1 !! k = members dir !! k).
Proof.
  intros Hid Ho Hm. cbv zeta. unfold createOrganization. rewrite Ho, Hm.
  cbn [fst snd members organizations].
  assert (Hadmin : <[(user, newId) := ADMIN]> (members dir) !! (user, newId)
                   = Some ADMIN) by apply lookup_insert_eq.
  repeat split; try done.
  - by apply memberRouteGuard_admin.
  - apply lookup_insert_eq.
  - intros k Hk. by rewrite lookup_insert_ne.
Qed.

Lemma createOrganization_admin_witness :
  (createOrganization "org-3" "dave" "Molinos" None small_directory).2
  = Http 201 "Organization created successfully"
  /\ members (createOrganization "org-3" "dave" "Molinos" None small_directory).1
     !! ("dave", "org-3") = Some ADMIN.
Proof.
  destruct (createOrganization_admin "org-3" "dave" "Molinos" None small_directory)
    as (H1 & H2 & _).
  - discriminate.
  - vm_compute; reflexivity.
  - vm_compute; reflexivity.
  - split; [exact H1 | exact H2].
Defined.

(** X21: creating an organization is not enough to administer it.  The
    creator who is not (or no longer) a member passes the access check,
    with no membership, and is then refused by the administrator guard;
    so an organization whose only administrator removed themself has
    nobody left who can manage its members. *)
Theorem creator_without_membership (user o : string) (dir : Directory)
    (org : Organization) :
  o <> "" ->
  organizations dir !! o = Some org -> createdById org = user ->
  members dir !! (user, o) = None ->
  checkOrganizationAccess user None (Some o) dir = Next None
  /\ memberRouteGuard user (Some o) dir = Some "Organization membership required".
Proof.
  intros Ho Horg Hc Hm. unfold memberRouteGuard, checkOrganizationAccess.
  cbv zeta. rewrite (truthy_string_Some o) by done. cbn.
  rewrite Hm, Horg, decide_True by done. done.
Qed.

Lemma creator_without_membership_witness :
  checkOrganizationAccess "carol" None (Some "org-1") small_directory = Next None
  /\ memberRouteGuard "carol" (Some "org-1") small_directory
     = Some "Organization membership required".
Proof.
  refine (creator_without_membership "carol" "org-1" small_directory cooperative
            _ _ eq_refl _).
  - discriminate.
  - vm_compute; reflexivity.
  - vm_compute; reflexivity.
Defined.

(** ** The constraints of the schema *)

Section Consistency.

Context (db : Store).
Hypothesis Hdb : consistent db.

Lemma consistent_syncLogs l : consistent (set_syncLogs l db).
Proof using Hdb. destruct Hdb. by constructor. Qed.

Lemma consistent_insert_provider k p :
  provider_id p = k ->
  consistent (set_providers (<[k := p]> (providers db)) db).
Proof using Hdb.
  intros Hk. destruct Hdb. constructor; cbn; try done.
  - intros k' p' H. apply lookup_insert_Some in H as [[<- <-]|[_ H]]; eauto.
  - intros k' t H. destruct (decide (k = providerId t)) as [->|Hne].
    + rewrite lookup_insert_eq. eauto.
    + rewrite lookup_insert_ne by done. eauto.
Qed.

Lemma consistent_delete_provider k :
  ~ provider_referenced k db ->
  consistent (set_providers (delete k (providers db)) db).
Proof using Hdb.
  intros Href. destruct Hdb. constructor; cbn; try done.
  - intros k' p' H. apply lookup_delete_Some in H as [_ H]. eauto.
  - intros k' t H. rewrite lookup_delete_ne; [eauto|].
    intros ->. apply Href. by exists k', t.
Qed.

Lemma consistent_insert_transaction k t :
  transaction_id t = k ->
  is_Some (providers db !! providerId t) ->
  (forall k2 t2, transactions db !! k2 = Some t2 ->
                 contractNumber t2 = contractNumber t -> k2 = k) ->
  consistent (set_transactions (<[k := t]> (transactions db)) db).
Proof using Hdb.
  intros Hk Hp Hcn. destruct Hdb. constructor; cbn; try done.
  - intros k' t' H. apply lookup_insert_Some in H as [[<- <-]|[_ H]]; eauto.
  - intros k1 k2 t1 t2 H1 H2 Heq.
    apply lookup_insert_Some in H1 as [[<- <-]|[Hn1 H1]];
      apply lookup_insert_Some in H2 as [[<- <-]|[Hn2 H2]]; eauto.
    symmetry. eauto.
  - intros k' t' H. apply lookup_insert_Some in H as [[<- <-]|[_ H]]; eauto.
  - intros a Ha. destruct (decide (k = advance_transactionId a)) as [->|Hne].
    + rewrite lookup_insert_eq. eauto.
    + rewrite lookup_insert_ne by done. eauto.
  - intros d Hd. destruct (decide (k = delivery_transactionId d)) as [->|Hne].
    + rewrite lookup_insert_eq. eauto.
    + rewrite lookup_insert_ne by done. eauto.
  - intros e t' He Ht. destruct (decide (k = t')) as [->|Hne].
    + rewrite lookup_insert_eq. eauto.
    + rewrite lookup_insert_ne by done. eauto.
Qed.

Lemma consistent_advance a :
  is_Some (transactions db !! advance_transactionId a) ->
  consistent (prisma.advance_create a db).
Proof using Hdb.
  intros Ha. destruct Hdb. constructor; cbn; try done.
  intros a' H. apply elem_of_app in H as [H|H]; [eauto|].
  by apply list_elem_of_singleton in H as ->.
Qed.

Lemma consistent_delivery d :
  is_Some (transactions db !! delivery_transactionId d) ->
  consistent (prisma.delivery_create d db).
Proof using Hdb.
  intros Hd. destruct Hdb. constructor; cbn; try done.
  intros d' H. apply elem_of_app in H as [H|H]; [eauto|].
  by apply list_elem_of_singleton in H as ->.
Qed.

Lemma consistent_expense_create row db' :
  expense_create row db = inr db' -> consistent db'.
Proof using Hdb.
  intros Hc. apply expense_create_inr in Hc as Heq. subst db'.
  revert Hc. unfold expense_create.
  destruct (bool_decide (Exists (fun e => expense_id e = expense_id row)
                                (expenses db)));
    [intros Hc; discriminate Hc|].
  destruct (bool_decide (Exists (fun c => category_id c = expense_categoryId row)
                                (expenseCategories db))) eqn:E2;
    [|intros Hc; discriminate Hc].
  intros Hc. apply bool_decide_eq_true in E2.
  assert (Ht : forall t, expense_transactionId row = Some t ->
                         is_Some (transactions db !! t)).
  { intros t Ht. rewrite Ht in Hc. by case_decide. }
  destruct Hdb. constructor; cbn; try done.
  - intros e t Hin Het. apply elem_of_app in Hin as [Hin|Hin]; [eauto|].
    apply list_elem_of_singleton in Hin as ->. eauto.
  - intros e Hin. apply elem_of_app in Hin as [Hin|Hin]; [eauto|].
    by apply list_elem_of_singleton in Hin as ->.
Qed.

Lemma consistent_expenses_filter (P : Expense -> Prop) `{!forall e, Decision (P e)} :
  consistent (set_expenses (filter P (expenses db)) db).
Proof using Hdb.
  destruct Hdb. constructor; cbn; try done.
  - intros e t Hin. apply list_elem_of_filter in Hin as [_ Hin]. eauto.
  - intros e Hin. apply list_elem_of_filter in Hin as [_ Hin]. eauto.
Qed.

Lemma consistent_update_transaction k t (f : Transaction -> Transaction) :
  transactions db !! k = Some t ->
  transaction_id (f t) = transaction_id t ->
  contractNumber (f t) = contractNumber t ->
  providerId (f t) = providerId t ->
  consistent (set_transactions (<[k := f t]> (transactions db)) db).
Proof using Hdb.
  intros Hk Hid Hcn Hp. apply consistent_insert_transaction.
  - rewrite Hid. by destruct Hdb as [_ H _ _ _ _ _ _]; apply H.
  - rewrite Hp. by destruct Hdb as [_ _ _ H _ _ _ _]; eapply H.
  - intros k2 t2 H2 Heq. rewrite Hcn in Heq.
    by destruct Hdb as [_ _ H _ _ _ _ _]; eapply H.
Qed.

End Consistency.

Lemma transaction_create_checks row db db' :
  prisma.transaction_create row db = inr db' ->
  is_Some (providers db !! providerId row)
  /\ forall k t, transactions db !! k = Some t ->
                 contractNumber t <> contractNumber row.
Proof.
  unfold prisma.transaction_create. intros H.
  repeat case_decide; try discriminate.
  split.
  - by destruct (providers db !! providerId row); [eauto|].
  - intros k t Hk Hcn. match goal with H : ¬ map_Exists _ _ |- _ => apply H end.
    by exists k, t.
Qed.

Lemma provider_step_consistent user db r db' f :
  provider_step user db r db' f -> consistent db -> consistent db'.
Proof.
  intros Hs Hdb. destruct Hs as [e He _ _ | | |]; try done.
  - apply consistent_insert_provider; [done|]. cbn.
    by destruct Hdb as [H _ _ _ _ _ _ _]; apply H.
  - by apply consistent_insert_provider.
Qed.

Lemma transaction_step_consistent user db r db' f :
  transaction_step user db r db' f -> consistent db -> consistent db'.
Proof.
  intros Hs Hdb. destruct Hs as [e He _ _ | | Hn Hc |]; try done.
  - by apply (consistent_update_transaction db Hdb (ct_id r) e
                (transaction_update_data r)).
  - apply transaction_create_checks in Hc as [Hp Hcn].
    apply consistent_insert_transaction; [done..|].
    intros k2 t2 H2 Heq. by destruct (Hcn k2 t2 H2).
Qed.

Lemma pushLoops_consistent user body db :
  consistent db -> consistent (pushLoops user body db).1.
Proof.
  intros Hdb. unfold pushLoops.
  assert (Hp : forall l st, consistent st.1 ->
                 consistent (fold_left (pushProvider user) l st).1).
  { induction l as [|r l IH]; intros [d res] H; cbn; [done|]. apply IH.
    destruct (pushProvider_step user d r) as (d' & f & Hs & Heq).
    rewrite Heq. cbn in *. eauto using provider_step_consistent. }
  assert (Ht : forall l st, consistent st.1 ->
                 consistent (fold_left (pushTransaction user) l st).1).
  { induction l as [|r l IH]; intros [d res] H; cbn; [done|]. apply IH.
    destruct (pushTransaction_step user d r) as (d' & f & Hs & Heq).
    rewrite Heq. cbn in *. eauto using transaction_step_consistent. }
  specialize (Hp (body_providers body) (db, no_result) Hdb).
  destruct (fold_left (pushProvider user) _ _) as [db1 rp].
  specialize (Ht (body_transactions body) (db1, no_result) Hp).
  by destruct (fold_left (pushTransaction user) _ _) as [db2 rt].
Qed.

Lemma findFirst_status_Some id user st db t :
  prisma.transaction_findFirst_status id user st db = Some t ->
  transactions db !! id = Some t.
Proof.
  unfold prisma.transaction_findFirst_status, prisma.transaction_findFirst.
  destruct (transactions db !! id) as [t'|]; [|done].
  repeat case_decide; congruence.
Qed.

Lemma updateMany_consistent id user st (f : Transaction -> Transaction) db :
  consistent db ->
  (forall t, transaction_id (f t) = transaction_id t
             /\ contractNumber (f t) = contractNumber t
             /\ providerId (f t) = providerId t) ->
  consistent (prisma.transaction_updateMany id user st f db).1.
Proof.
  intros Hdb Hf. unfold prisma.transaction_updateMany.
  destruct (prisma.transaction_findFirst_status id user st db) as [t|] eqn:E;
    [|done].
  apply findFirst_status_Some in E. cbn.
  destruct (Hf t) as (H1 & H2 & H3).
  by apply consistent_update_transaction.
Qed.

(** X22: every request that writes to the store keeps the constraints of
    the schema: rows stay under their own id, contract numbers stay
    unique, and no transaction is left naming a provider that is gone, nor
    a movement or an expense naming a transaction or a category that is
    gone, whatever the users and organizations are at the time of each
    request.  So they hold in every store reached from the empty one. *)
Theorem serve_consistent (requests : list (Directory * Request)) (db : Store) :
  consistent db ->
  consistent (fold_left (fun db r => serve r.1 r.2 db) requests db).
Proof.
  revert db. induction requests as [|[dir r] requests IH]; intros db Hdb; [done|].
  cbn [fold_left fst snd]. apply IH. clear IH.
  destruct r as [m | a1 a2 now user lastSync | newId cn now user b
                 | newId now user id amount categoryId desc
                 | newId now amount categoryId desc | user id
                 | newId now user b | now user id b | user id]; cbn [serve].
  - destruct m as [now stamp u i | now u i b | u i a d | u i q d | a1 a2 u body];
      cbn [run].
    + unfold closeTransaction.
      pose proof (updateMany_consistent i u ACTIVE (close_data now stamp) db Hdb
                    (fun t => conj eq_refl (conj eq_refl eq_refl))) as H.
      destruct (prisma.transaction_updateMany _ _ _ _ _) as [db' n].
      by destruct (n =? 0)%nat.
    + unfold updateTransaction.
      pose proof (updateMany_consistent i u ACTIVE (update_data now b) db Hdb
                    (fun t => conj eq_refl (conj eq_refl eq_refl))) as H.
      destruct (prisma.transaction_updateMany _ _ _ _ _) as [db' n].
      by destruct (n =? 0)%nat.
    + unfold addAdvance.
      destruct (prisma.transaction_findFirst_status i u ACTIVE db) as [t|] eqn:E;
        [|done].
      apply findFirst_status_Some in E. cbn.
      apply consistent_advance; [done|]. cbn. eauto.
    + unfold addDelivery.
      destruct (prisma.transaction_findFirst_status i u ACTIVE db) as [t|] eqn:E;
        [|done].
      apply findFirst_status_Some in E. cbn.
      apply consistent_delivery; [done|]. cbn. eauto.
    + destruct (push_store a1 a2 u body db) as [l ->].
      by apply consistent_syncLogs, pushLoops_consistent.
  - unfold pull. cbv zeta. destruct a1, a2; cbn;
      try done; by apply consistent_syncLogs.
  - unfold createTransaction. cbv zeta.
    destruct (organization_exists _ _); [|done].
    destruct (prisma.transaction_create _ db) as [e|db'] eqn:Hc; [done|]. cbn.
    apply transaction_create_ok in Hc as Hok. destruct Hok as [_ ->].
    apply transaction_create_checks in Hc as [Hp Hcn].
    apply consistent_insert_transaction; [done..|].
    intros k2 t2 H2 Heq. by destruct (Hcn k2 t2 H2).
  - unfold addExpense.
    destruct (prisma.transaction_findFirst id user db); [|done].
    destruct (expense_create _ db) as [e|db'] eqn:Hc; [done|]. cbn.
    eauto using consistent_expense_create.
  - unfold createExpense.
    destruct (expense_create _ db) as [e|db'] eqn:Hc; [done|]. cbn.
    eauto using consistent_expense_create.
  - unfold deleteExpense. destruct (find _ _); [|done]. cbn.
    by apply consistent_expenses_filter.
  - unfold createProvider. cbv zeta.
    destruct (organization_exists _ _); [|done].
    unfold prisma.provider_create. cbn [provider_id].
    destruct (providers db !! newId); [done|]. cbn.
    by apply consistent_insert_provider.
  - unfold updateProvider.
    destruct (providers db !! id) as [p|] eqn:Hp; [|done].
    destruct (provider_accessible dir user p); [|done]. cbn.
    apply consistent_insert_provider; [done|]. cbn.
    by destruct Hdb as [H _ _ _ _ _ _ _]; apply H.
  - unfold deleteProvider. cbv zeta.
    destruct (0 <? _)%nat; [done|].
    destruct (providers db !! id) as [p|]; [|done].
    destruct (provider_accessible dir user p); [|done].
    destruct (decide (provider_referenced id db)); [done|]. cbn.
    by apply consistent_delete_provider.
Qed.

Lemma empty_store_consistent : consistent empty_store.
Proof.
  constructor; cbn; intros *; try (rewrite lookup_empty; discriminate);
    intros H; by apply elem_of_nil in H.
Qed.

Lemma serve_consistent_witness :
  consistent
    (fold_left (fun db r => serve r.1 r.2 db)
       [(small_directory,
         CreateProvider "prov-1" 100 "alice"
           (mkProviderBody "Granja Norte" None None None None None));
        (small_directory,
         CreateTransaction "op-2" "20250301-CCCC" 400 "alice"
           (mkCreateBody "prov-1" None None (Some 100%float) (Some 10%float)
              None None));
        (small_directory, DeleteProvider "alice" "prov-1")]
       empty_store).
Proof. exact (serve_consistent _ _ empty_store_consistent). Defined.

(** ** What a push stores *)




(** ** Balances of an operation without movements *)

Lemma float_zero_div (y : float) :
  PrimFloat.ltb 0 y = true -> (0 / y)%float = 0%float.
Proof.
  intros H. rewrite FloatAxioms.ltb_spec in H.
  rewrite <- (FloatAxioms.SF2Prim_Prim2SF (0 / y)), FloatAxioms.div_spec.
  change (Prim2SF 0) with (S754_zero false) in *.
  destruct (Prim2SF y) as [s| s | | s m e]; try discriminate;
    destruct s; try discriminate; reflexivity.
Qed.

Lemma float_sub_zero (x : float) :
  Prim2SF x <> S754_zero true -> (x - 0)%float = x.
Proof.
  intros H.
  rewrite <- (FloatAxioms.SF2Prim_Prim2SF (x - 0)), FloatAxioms.sub_spec.
  rewrite <- (FloatAxioms.SF2Prim_Prim2SF x) at 2.
  change (Prim2SF 0) with (S754_zero false).
  destruct (Prim2SF x) as [s| s | | s m e]; try reflexivity.
  destruct s; [done | reflexivity].
Qed.

Lemma or_num_not_negative_zero (a : option float) :
  Prim2SF (JS.or_num a 0) <> S754_zero true.
Proof.
  unfold JS.or_num, JS.truthy. destruct a as [x|]; [|discriminate]. cbn.
  destruct (PrimFloat.eqb x 0) eqn:E; cbn; [discriminate|].
  destruct (PrimFloat.is_nan x); cbn; [discriminate|].
  intros H. rewrite FloatAxioms.eqb_spec, H in E. discriminate.
Qed.

(** X24: an operation with no advance recorded owes its whole total: the
    sum of advances is 0, the money balance is the agreed total (0 when
    there is none) and the money progress is 0, for every total, in
    double arithmetic.  The same holds for the product side of an
    operation with no delivery. *)
Theorem calculateBalances_no_movement (transaction : Transaction)
    (advances : list Advance) (deliveries : list Delivery) :
  (let b := calculateBalances transaction [] deliveries in
   totalAdvances b = 0%float
   /\ moneyBalance b = JS.or_num (totalAmount transaction) 0
   /\ moneyProgress b = 0%float)
  /\ (let b := calculateBalances transaction advances [] in
      totalDelivered b = 0%float
      /\ productBalance b = JS.or_num (quantity transaction) 0
      /\ productProgress b = 0%float).
Proof.
  cbv zeta. unfold calculateBalances.
  cbn [fold_left totalAdvances totalDelivered moneyBalance productBalance
       moneyProgress productProgress]. unfold JS.gt0.
  split; (split; [reflexivity|]); split.
  - apply float_sub_zero, or_num_not_negative_zero.
  - destruct (PrimFloat.ltb 0 (JS.ToNumber (totalAmount transaction))) eqn:E;
      [rewrite float_zero_div by done|]; vm_compute; reflexivity.
  - apply float_sub_zero, or_num_not_negative_zero.
  - destruct (PrimFloat.ltb 0 (JS.ToNumber (quantity transaction))) eqn:E;
      [rewrite float_zero_div by done|]; vm_compute; reflexivity.
Qed.

(** ** The balances shown for one transaction *)








